(** * TravelPlannerMS: the composite routes, embedded and verified

    A shallow embedding of [src/http-client.ts], [src/services.ts] and of the
    composite router (validation helpers and the four route handlers), and
    the proofs of the properties the specification states about them.

    Conventions of the embedding.
    - JavaScript values are the terms of [Value]; an object is the list of
      its own enumerable properties in enumeration order.
    - Numbers are IEEE 754 binary64 values, taken from the Standard
      Library's executable specification [SpecFloat] (no primitive floats).
    - Strings are sequences of 8-bit code units.
    - A thrown exception or rejected promise is the [Throw] completion.
    - The upstream services are a function [fetch] from requests to
      outcomes; every request issued is appended to a trace.
    - [Promise.all] runs its members in index order; each member runs to its
      own completion, and the lowest-index rejection is the one reported
      (the runtime reports the earliest in time; no property below depends
      on which one is reported). *)

From Stdlib Require Import ZArith List Bool Lia.
From Stdlib Require Import String Ascii.
From Stdlib Require Import SpecFloat.
From stdpp Require Import base strings list gmap pretty.

Local Open Scope Z_scope.
Set Warnings "-register-all".
Set Default Proof Using "Type".

(** ** Numbers: IEEE 754 binary64 *)

Module Number.

Definition prec : Z := 53.
Definition emax : Z := 1024.

Definition t : Type := spec_float.

Definition NaN : t := S754_nan.
Definition zero : t := S754_zero false.

(** The Number nearest to an integer (ties to even). *)
Definition of_Z (z : Z) : t := binary_normalize prec emax z 0 false.

Definition add : t -> t -> t := SFadd prec emax.
Definition sub : t -> t -> t := SFsub prec emax.
Definition mul : t -> t -> t := SFmul prec emax.
Definition div : t -> t -> t := SFdiv prec emax.

Definition eqb : t -> t -> bool := SFeqb.
Definition ltb : t -> t -> bool := SFltb.
Definition leb : t -> t -> bool := SFleb.

Definition is_NaN (x : t) : bool :=
  match x with S754_nan => true | _ => false end.

Definition is_zero (x : t) : bool :=
  match x with S754_zero _ => true | _ => false end.

(** [Math.ceil]: the least integral Number not below [x]; a result that
    is zero keeps the sign of [x]. *)
Definition ceil (x : t) : t :=
  match x with
  | S754_finite s m e =>
      if 0 <=? e then x
      else
        let q := Z.pos m / 2 ^ (- e) in
        let r := Z.pos m mod 2 ^ (- e) in
        if s then (if q =? 0 then S754_zero true else of_Z (- q))
        else (if r =? 0 then of_Z q else of_Z (q + 1))
  | _ => x
  end.

(** Truncation towards zero of a finite Number; [None] for NaN and the
    infinities. *)
Definition trunc (x : t) : option Z :=
  match x with
  | S754_zero _ => Some 0
  | S754_finite s m e =>
      let a := if 0 <=? e then Z.pos m * 2 ^ e else Z.pos m / 2 ^ (- e) in
      Some (if s then - a else a)
  | _ => None
  end.

(** The Number nearest to [m * 10^e], for a decimal literal with digits
    [m] and decimal exponent [e]. *)
Definition of_decimal (neg : bool) (m : N) (e : Z) : t :=
  match m with
  | N0 => S754_zero neg
  | Npos p =>
      if 0 <=? e
      then binary_round prec emax neg (p * Z.to_pos (10 ^ e)) 0
      else SFdiv prec emax (S754_finite neg p 0)
                           (S754_finite false (Z.to_pos (10 ^ (- e))) 0)
  end.






End Number.

(** ** Strings *)

Module Str.

(** [s.includes(sub)]. *)
Fixpoint includes (sub s : string) : bool :=
  String.prefix sub s ||
  match s with
  | EmptyString => false
  | String _ s' => includes sub s'
  end.

Definition is_digit (c : ascii) : bool :=
  let n := N_of_ascii c in ((48 <=? n) && (n <=? 57))%N.

Definition digit_val (c : ascii) : N := (N_of_ascii c - 48)%N.

(** The white space and line terminator code units below 256. *)
Definition is_space (c : ascii) : bool :=
  let n := N_of_ascii c in
  ((n =? 9) || (n =? 10) || (n =? 11) || (n =? 12) || (n =? 13) ||
   (n =? 32) || (n =? 160))%N.

Fixpoint trim_start (s : string) : string :=
  match s with
  | String c s' => if is_space c then trim_start s' else s
  | EmptyString => s
  end.

Fixpoint take_digits (s : string) : list ascii * string :=
  match s with
  | String c s' =>
      if is_digit c
      then let '(ds, r) := take_digits s' in (c :: ds, r)
      else ([], s)
  | EmptyString => ([], s)
  end.

Definition digits_value (ds : list ascii) : N :=
  fold_left (fun acc c => (acc * 10 + digit_val c)%N) ds 0%N.

(** [ExponentPart]: [e] or [E], an optional sign, at least one digit;
    anything else is not part of the literal. *)
Definition exponent_part (s : string) : Z :=
  match s with
  | String c r =>
      if (Ascii.eqb c "e" || Ascii.eqb c "E")%char then
        let '(neg, r') :=
          match r with
          | String "-" r' => (true, r')
          | String "+" r' => (false, r')
          | _ => (false, r)
          end in
        match fst (take_digits r') with
        | [] => 0
        | ds => let x := Z.of_N (digits_value ds) in if neg then - x else x
        end
      else 0
  | EmptyString => 0
  end.

(** [parseFloat] on a string: the longest prefix of the trimmed string
    that is a [StrDecimalLiteral], rounded to the nearest Number; NaN when
    there is none. *)
Definition parseFloat (s : string) : Number.t :=
  let s := trim_start s in
  let '(neg, s) :=
    match s with
    | String "-" r => (true, r)
    | String "+" r => (false, r)
    | _ => (false, s)
    end in
  if String.prefix "Infinity" s then S754_infinity neg
  else
    let '(ip, r1) := take_digits s in
    let '(fp, r2) :=
      match r1 with
      | String "." r => take_digits r
      | _ => ([], r1)
      end in
    match ip ++ fp with
    | [] => Number.NaN
    | ds =>
        Number.of_decimal neg (digits_value ds)
          (exponent_part r2 - Z.of_nat (length fp))
    end.

(** The code units of a string, each as a one-unit string. *)
Fixpoint units (s : string) : list string :=
  match s with
  | EmptyString => []
  | String c s' => String c EmptyString :: units s'
  end.

Definition join (sep : string) (l : list string) : string :=
  match l with
  | [] => EmptyString
  | x :: r => fold_left (fun acc y => acc +:+ sep +:+ y) r x
  end.

End Str.

(** ** Calendar dates *)

Module Calendar.

Definition msPerDay : Z := 86400000.

Definition is_leap (y : Z) : bool :=
  ((y mod 4 =? 0) && negb (y mod 100 =? 0)) || (y mod 400 =? 0).

Definition days_in_month (y m : Z) : Z :=
  if m =? 2 then (if is_leap y then 29 else 28)
  else if (m =? 4) || (m =? 6) || (m =? 9) || (m =? 11) then 30
  else 31.

(** Days from 1970-01-01 to the first day of year [y]. *)
Definition day_from_year (y : Z) : Z :=
  365 * (y - 1970) + (y - 1969) / 4 - (y - 1901) / 100 + (y - 1601) / 400.

(** Days from the first day of year [y] to the first day of month [m]. *)
Definition days_before_month (y m : Z) : Z :=
  fold_left (fun acc k => acc + days_in_month y (Z.of_nat k))
            (seq 1 (Z.to_nat (m - 1))) 0.

(** The time value (milliseconds since the epoch, UTC) of midnight on a
    calendar date. *)
Definition utc_midnight (y m d : Z) : Z :=
  (day_from_year y + days_before_month y m + (d - 1)) * msPerDay.

Definition num (ds : list ascii) : Z := Z.of_N (Str.digits_value ds).

(** The date-only form [YYYY-MM-DD] of the Date Time String Format,
    for a date that exists in the calendar. *)
Definition parse_date_only (s : string) : option Z :=
  match list_ascii_of_string s with
  | [y1; y2; y3; y4; "-"; m1; m2; "-"; d1; d2]%char =>
      if forallb Str.is_digit [y1; y2; y3; y4; m1; m2; d1; d2] then
        let y := num [y1; y2; y3; y4] in
        let m := num [m1; m2] in
        let d := num [d1; d2] in
        if (1 <=? m) && (m <=? 12) && (1 <=? d) && (d <=? days_in_month y m)
        then Some (utc_midnight y m d)
        else None
      else None
  | _ => None
  end.

(** [TimeClip] on an integral time value. *)
Definition time_clip (t : Z) : option Z :=
  if Z.abs t <=? 8640000000000000 then Some t else None.

End Calendar.

(** ** JavaScript values *)

Inductive Value : Type :=
| VUndefined
| VNull
| VBool (b : bool)
| VNum (n : Number.t)
| VStr (s : string)
| VArr (items : list Value)
| VObj (fields : list (string * Value))
| VFunction (name : string).

(** The parts of the JavaScript engine the language standard leaves to the
    implementation, or that are not needed in detail here. *)
Class Engine : Type := {
  (** [Number::toString] in radix 10. *)
  Number_toString : Number.t -> string;
  (** [Date.parse] on a string that is not the date-only form
      [YYYY-MM-DD] of an existing date (other forms of the Date Time String
      Format, and the implementation-specific fallback formats); [None] is
      NaN. *)
  Date_parse_other : string -> option Z
}.

Module JS.

Definition truthy (v : Value) : bool :=
  match v with
  | VUndefined | VNull => false
  | VBool b => b
  | VNum n => negb (Number.is_NaN n || Number.is_zero n)
  | VStr s => negb (String.eqb s EmptyString)
  | VArr _ | VObj _ | VFunction _ => true
  end.

(** [a || b]. *)
Definition or (a b : Value) : Value := if truthy a then a else b.

Definition typeof (v : Value) : string :=
  match v with
  | VUndefined => "undefined"
  | VNull => "object"
  | VBool _ => "boolean"
  | VNum _ => "number"
  | VStr _ => "string"
  | VArr _ | VObj _ => "object"
  | VFunction _ => "function"
  end.

(** [a === b]. Objects are equal only to themselves; the two sides of
    every comparison in the router come from different messages, so two
    objects are never the same object. *)
Definition strict_eq (a b : Value) : bool :=
  match a, b with
  | VUndefined, VUndefined => true
  | VNull, VNull => true
  | VBool x, VBool y => Bool.eqb x y
  | VNum x, VNum y => Number.eqb x y
  | VStr x, VStr y => String.eqb x y
  | _, _ => false
  end.

Definition isArray (v : Value) : bool :=
  match v with VArr _ => true | _ => false end.

(** Own property lookup in an object's property list. *)
Fixpoint assoc (k : string) (o : list (string * Value)) : option Value :=
  match o with
  | [] => None
  | (k', v) :: r => if String.eqb k' k then Some v else assoc k r
  end.

(** [o[k] = v] on a property list: an existing property keeps its
    place, a new one goes last. *)
Fixpoint set_field (k : string) (v : Value) (o : list (string * Value))
  : list (string * Value) :=
  match o with
  | [] => [(k, v)]
  | (k', v') :: r =>
      if String.eqb k' k then (k, v) :: r else (k', v') :: set_field k v r
  end.

Definition index_key (i : nat) : string := pretty (N.of_nat i).

(** The own enumerable properties copied by [{...v}]. *)
Definition spread (v : Value) : list (string * Value) :=
  match v with
  | VObj o => o
  | VArr l => imap (fun i x => (index_key i, x)) l
  | VStr s => imap (fun i x => (index_key i, VStr x)) (Str.units s)
  | _ => []
  end.

(** An object literal [{...v, k1: x1, ..., kn: xn}]. *)
Definition extend (v : Value) (props : list (string * Value)) : Value :=
  VObj (fold_left (fun o '(k, x) => set_field k x o) props (spread v)).

Section WithEngine.
Context {E : Engine}.

(** [ToString], as applied by template literals and property keys. *)
Fixpoint ToString (v : Value) : string :=
  match v with
  | VUndefined => "undefined"
  | VNull => "null"
  | VBool b => if b then "true" else "false"
  | VNum n => Number_toString n
  | VStr s => s
  | VArr l =>
      Str.join ","
        ((fix elems (l : list Value) : list string :=
            match l with
            | [] => []
            | (VUndefined | VNull) :: r => EmptyString :: elems r
            | x :: r => ToString x :: elems r
            end) l)
  | VObj _ => "[object Object]"
  | VFunction name => "function " +:+ name +:+ "() { [native code] }"
  end.

(** [parseFloat(v)]. *)
Definition parseFloat (v : Value) : Number.t := Str.parseFloat (ToString v).

(** [Date.parse]. *)
Definition Date_parse (s : string) : option Z :=
  match Calendar.parse_date_only s with
  | Some t => Some t
  | None => Date_parse_other s
  end.

(** The time value of [new Date(v)]; [None] is NaN (an invalid date).
    A string is parsed, any other primitive is converted to a Number,
    an object is converted to a string first; the result goes through
    [TimeClip]. *)
Definition Date_new (v : Value) : option Z :=
  let tv :=
    match v with
    | VUndefined => None
    | VNull => Some 0
    | VBool b => Some (if b then 1 else 0)
    | VNum n => Number.trunc n
    | VStr s => Date_parse s
    | VArr _ | VObj _ | VFunction _ => Date_parse (ToString v)
    end in
  match tv with
  | Some t => Calendar.time_clip t
  | None => None
  end.

End WithEngine.

(** [date.getTime()]. *)
Definition getTime (d : option Z) : Number.t :=
  match d with
  | Some t => Number.of_Z t
  | None => Number.NaN
  end.

(** [a <= b] on two Date objects: the comparison of their time values. *)
Definition Date_le (a b : option Z) : bool :=
  match a, b with
  | Some x, Some y => x <=? y
  | _, _ => false
  end.

End JS.

(** ** Completions, the request trace and promises *)

Record JSError : Type := { err_name : string; err_message : string }.

Definition Error (message : string) : JSError :=
  {| err_name := "Error"; err_message := message |}.
Definition TypeError (message : string) : JSError :=
  {| err_name := "TypeError"; err_message := message |}.
Definition SyntaxError (message : string) : JSError :=
  {| err_name := "SyntaxError"; err_message := message |}.

Inductive Completion (A : Type) : Type :=
| Normal (a : A)
| Throw (e : JSError).
Arguments Normal {A} a.
Arguments Throw {A} e.

Definition cbind {A B} (c : Completion A) (k : A -> Completion B) : Completion B :=
  match c with
  | Normal a => k a
  | Throw e => Throw e
  end.

(** The two methods of the client that the router uses. *)
Inductive Method : Type := GET | POST.

(** One call of the global [fetch]. *)
Record Request : Type := {
  req_method : Method;
  req_url : string;
  req_body : option Value
}.

Inductive ResponseBody : Type :=
| JsonBody (v : Value)             (* [response.json()] resolves with [v] *)
| MalformedBody (message : string) (* [response.json()] rejects *).

Record FetchResponse : Type := {
  status : N;
  statusText : string;
  body : ResponseBody
}.

Inductive FetchResult : Type :=
| FetchFailed (message : string)   (* [fetch] rejects: no HTTP response *)
| Fetched (response : FetchResponse).

(** The upstream services, seen through [fetch]. *)
Class Upstream : Type := { fetch : Request -> FetchResult }.

Definition Trace : Type := list Request.

(** An asynchronous computation: from the requests issued so far to a
    completion and the requests issued by then. *)
Definition Async (A : Type) : Type := Trace -> Completion A * Trace.

Definition ret {A} (a : A) : Async A := fun tr => (Normal a, tr).
Definition throw {A} (e : JSError) : Async A := fun tr => (Throw e, tr).
Definition sync {A} (c : Completion A) : Async A := fun tr => (c, tr).

Definition bind {A B} (p : Async A) (k : A -> Async B) : Async B :=
  fun tr =>
    match p tr with
    | (Normal a, tr') => k a tr'
    | (Throw e, tr') => (Throw e, tr')
    end.

(** [try { p } catch (error) { h error }]. *)
Definition try_catch {A} (p : Async A) (h : JSError -> Async A) : Async A :=
  fun tr =>
    match p tr with
    | (Normal a, tr') => (Normal a, tr')
    | (Throw e, tr') => h e tr'
    end.

Declare Scope async_scope.
Delimit Scope async_scope with async.
Notation "'let*' x ':=' c 'in' k" := (bind c (fun x => k))
  (at level 10, x name, c at level 100, k at level 200) : async_scope.
Notation "'let?' x ':=' c 'in' k" := (cbind c (fun x => k))
  (at level 10, x name, c at level 100, k at level 200) : async_scope.
Local Open Scope async_scope.

(** [Promise.all(ps)]: every member runs; the result is the list of their
    values, or the rejection of the first member (in index order) that
    rejected. *)
Fixpoint Promise_all {A} (ps : list (Async A)) : Async (list A) :=
  match ps with
  | [] => ret []
  | p :: rest =>
      fun tr =>
        let '(r, tr1) := p tr in
        let '(rs, tr2) := Promise_all rest tr1 in
        (match r, rs with
         | Normal a, Normal l => Normal (a :: l)
         | Throw e, _ => Throw e
         | Normal _, Throw e => Throw e
         end, tr2)
  end.

(** [const [a, b] = await Promise.all([p, q])]. *)
Definition Promise_all2 {A B} (p : Async A) (q : Async B) : Async (A * B) :=
  fun tr =>
    let '(r1, tr1) := p tr in
    let '(r2, tr2) := q tr1 in
    (match r1, r2 with
     | Normal a, Normal b => Normal (a, b)
     | Throw e, _ => Throw e
     | Normal _, Throw e => Throw e
     end, tr2).

(** ** Property access and array methods *)

Module Obj.

(** [v.k] for a property name [k] that no built-in prototype defines
    (all the names the router reads) and for [length]. The router never
    reads a property of a function value. *)
Definition get (v : Value) (k : string) : Completion Value :=
  match v with
  | VUndefined =>
      Throw (TypeError
        ("Cannot read properties of undefined (reading '" +:+ k +:+ "')"))
  | VNull =>
      Throw (TypeError
        ("Cannot read properties of null (reading '" +:+ k +:+ "')"))
  | VObj o => Normal (default VUndefined (JS.assoc k o))
  | VArr l =>
      Normal (if String.eqb k "length"
              then VNum (Number.of_Z (Z.of_nat (length l)))
              else VUndefined)
  | VStr s =>
      Normal (if String.eqb k "length"
              then VNum (Number.of_Z (Z.of_nat (String.length s)))
              else VUndefined)
  | VFunction name =>
      Normal (if String.eqb k "name" then VStr name else VUndefined)
  | VBool _ | VNum _ => Normal VUndefined
  end.

(** The callee of [v.method(...)]: only arrays have the array methods. *)
Definition array_method (v : Value) (method : string)
  : Completion (list Value) :=
  match v with
  | VArr l => Normal l
  | VUndefined | VNull => cbind (get v method) (fun _ => Normal [])
  | _ => Throw (TypeError (method +:+ " is not a function"))
  end.

(** [v.some(f)]. *)
Definition some (v : Value) (f : Value -> Completion bool) : Completion bool :=
  let? l := array_method v "some" in
  (fix go (l : list Value) : Completion bool :=
     match l with
     | [] => Normal false
     | x :: r => let? b := f x in if b then Normal true else go r
     end) l.

(** [v.reduce(f, init)]. *)
Definition reduce {A} (v : Value) (f : A -> Value -> Completion A) (init : A)
  : Completion A :=
  let? l := array_method v "reduce" in
  fold_left (fun acc x => let? a := acc in f a x) l (Normal init).

(** [v.map(f)] for a synchronous callback. *)
Definition map (v : Value) (f : Value -> Completion Value)
  : Completion (list Value) :=
  let? l := array_method v "map" in
  (fix go (l : list Value) : Completion (list Value) :=
     match l with
     | [] => Normal []
     | x :: r => let? y := f x in let? ys := go r in Normal (y :: ys)
     end) l.

(** The names [Object.prototype] defines: read on an object literal, they
    give an inherited member when the object has no own property of that
    name. *)
Definition Object_prototype_names : list string :=
  [ "constructor"; "__defineGetter__"; "__defineSetter__";
    "hasOwnProperty"; "__lookupGetter__"; "__lookupSetter__";
    "isPrototypeOf"; "propertyIsEnumerable"; "toString"; "valueOf";
    "__proto__"; "toLocaleString" ].

Definition inherited (k : string) : bool :=
  existsb (String.eqb k) Object_prototype_names.

(** [obj[k]] on an object literal used as a map from keys to arrays. *)
Definition lookup (obj : gmap string (list Value)) (k : string) : Value :=
  match obj !! k with
  | Some l => VArr l
  | None =>
      if inherited k
      then (if String.eqb k "__proto__" then VObj [] else VFunction k)
      else VUndefined
  end.

End Obj.

(** ** src/http-client.ts *)

Record HttpClient : Type := { baseUrl : string }.

Section Client.
Context {U : Upstream}.

(** The global [fetch]: the request is issued (and recorded) and either
    fails or resolves with a response. *)
Definition js_fetch (r : Request) : Async FetchResponse :=
  fun tr =>
    (match fetch r with
     | FetchFailed m => Throw (TypeError m)
     | Fetched response => Normal response
     end, tr ++ [r]).

Definition response_ok (response : FetchResponse) : bool :=
  ((200 <=? status response) && (status response <=? 299))%N.

Definition response_json (response : FetchResponse) : Async Value :=
  match body response with
  | JsonBody v => ret v
  | MalformedBody m => throw (SyntaxError m)
  end.

Definition http_error (response : FetchResponse) (url : string) : JSError :=
  Error ("HTTP " +:+ pretty (status response) +:+ ": "
         +:+ statusText response +:+ " from " +:+ url).

Definition HttpClient_get (this : HttpClient) (path : string) : Async Value :=
  let url := baseUrl this +:+ path in
  let* response := js_fetch {| req_method := GET; req_url := url; req_body := None |} in
  if negb (response_ok response) then throw (http_error response url)
  else response_json response.

Definition HttpClient_post (this : HttpClient) (path : string) (data : Value)
  : Async Value :=
  let url := baseUrl this +:+ path in
  let* response :=
    js_fetch {| req_method := POST; req_url := url; req_body := Some data |} in
  if negb (response_ok response) then throw (http_error response url)
  else response_json response.

End Client.

(** ** src/services.ts *)

(** The three variables the service reads from [process.env]. *)
Class ProcessEnv : Type := {
  DESTINATIONS_MS_URL : option string;
  PRICING_MS_URL : option string;
  ITINERARIES_MS_URL : option string
}.

(** [process.env.X || fallback]. *)
Definition env_or (x : option string) (fallback : string) : string :=
  match x with
  | Some s => if String.eqb s EmptyString then fallback else s
  | None => fallback
  end.

Section Services.
Context {P : ProcessEnv}.

Definition DESTINATIONS_URL : string :=
  env_or DESTINATIONS_MS_URL "http://localhost:3001".
Definition PRICING_URL : string :=
  env_or PRICING_MS_URL "http://localhost:3002".
Definition ITINERARIES_URL : string :=
  env_or ITINERARIES_MS_URL "http://localhost:3003".

Definition destinationsClient : HttpClient := {| baseUrl := DESTINATIONS_URL |}.
Definition pricingClient : HttpClient := {| baseUrl := PRICING_URL |}.
Definition itinerariesClient : HttpClient := {| baseUrl := ITINERARIES_URL |}.

End Services.

(** ** The composite router *)

(** [{ valid: boolean; error?: string }] *)
Record RefValidation : Type := { ref_valid : bool; ref_error : option string }.

(** [{ valid: boolean; errors: string[] }] *)
Record SegmentValidation : Type := { seg_valid : bool; seg_errors : list Value }.

(** What a handler sends: [res.status(code).json(json)]. *)
Record Reply : Type := { code : N; json : Value }.

Definition Handler : Type := Trace -> Reply * Trace.

(** [value!] on an optional string. *)
Definition non_null (o : option string) : Value :=
  match o with
  | Some s => VStr s
  | None => VUndefined
  end.

(** [v && Array.isArray(v) && v.length > 0], with the items when it holds. *)
Definition nonempty_array (v : Value) : option (list Value) :=
  if JS.truthy v && JS.isArray v then
    match v with
    | VArr (x :: r) => Some (x :: r)
    | _ => None
    end
  else None.

Section Router.
Context {E : Engine} {U : Upstream} {P : ProcessEnv}.

(** [try { p } catch (error) { res.status(500).json({ error: error.message || fallback }) }] *)
Definition route (fallback : string) (p : Async Reply) : Handler :=
  fun tr =>
    match p tr with
    | (Normal reply, tr') => (reply, tr')
    | (Throw error, tr') =>
        ({| code := 500;
            json := VObj [("error",
                      JS.or (VStr (err_message error)) (VStr fallback))] |},
         tr')
    end.

(** Helper: Validate city exists in DestinationsMS *)
Definition validateCityExists (cityId : Value) : Async RefValidation :=
  try_catch
    (let* _ := HttpClient_get destinationsClient ("/cities/" +:+ JS.ToString cityId) in
     ret {| ref_valid := true; ref_error := None |})
    (fun error =>
       if Str.includes "404" (err_message error) then
         ret {| ref_valid := false;
                ref_error := Some ("City with ID '" +:+ JS.ToString cityId
                                   +:+ "' does not exist") |}
       else throw error).

(** The callback of [classes.some] in [validateLodgingClass]. *)
Definition is_class (lodgingClass : Value) (lc : Value) : Completion bool :=
  if String.eqb (JS.typeof lc) "string" then Normal (JS.strict_eq lc lodgingClass)
  else let? class_name := Obj.get lc "class_name" in
       Normal (JS.strict_eq class_name lodgingClass).

(** Helper: Validate lodging class exists in PricingMS *)
Definition validateLodgingClass (lodgingClass : Value) : Async RefValidation :=
  try_catch
    (let* classes := HttpClient_get pricingClient "/lodging-classes" in
     let* exists_ := sync (Obj.some classes (is_class lodgingClass)) in
     if negb exists_ then
       ret {| ref_valid := false;
              ref_error := Some ("Lodging class '" +:+ JS.ToString lodgingClass
                                 +:+ "' does not exist") |}
     else ret {| ref_valid := true; ref_error := None |})
    (fun error => throw error).

(** Helper: Validate segment data *)
Definition validateSegment (segment : Value) : Async SegmentValidation :=
  let errors : list Value := [] in
  let* city_id := sync (Obj.get segment "city_id") in
  let* errors :=
    (if negb (JS.truthy city_id) then
       ret (errors ++ [VStr "Segment missing city_id"])
     else
       let* cityValidation := validateCityExists city_id in
       if negb (ref_valid cityValidation)
       then ret (errors ++ [non_null (ref_error cityValidation)])
       else ret errors) in
  let* lodging_class := sync (Obj.get segment "lodging_class") in
  let* errors :=
    (if negb (JS.truthy lodging_class) then
       ret (errors ++ [VStr "Segment missing lodging_class"])
     else
       let* lodgingValidation := validateLodgingClass lodging_class in
       if negb (ref_valid lodgingValidation)
       then ret (errors ++ [non_null (ref_error lodgingValidation)])
       else ret errors) in
  let* start_date := sync (Obj.get segment "start_date") in
  let errors :=
    if negb (JS.truthy start_date)
    then errors ++ [VStr "Segment missing start_date"] else errors in
  let* end_date := sync (Obj.get segment "end_date") in
  let errors :=
    if negb (JS.truthy end_date)
    then errors ++ [VStr "Segment missing end_date"] else errors in
  (* Validate date range *)
  let errors :=
    if JS.truthy start_date && JS.truthy end_date then
      let start_ := JS.Date_new start_date in
      let end_ := JS.Date_new end_date in
      if JS.Date_le end_ start_
      then errors ++ [VStr "end_date must be after start_date"]
      else errors
    else errors in
  ret {| seg_valid := Nat.eqb (length errors) 0; seg_errors := errors |}.

(** The city and the rates of a segment, fetched in parallel. *)
Definition fetch_city_and_rates (segment : Value) : Async (Value * Value) :=
  let* city_id := sync (Obj.get segment "city_id") in
  let* lodging_class := sync (Obj.get segment "lodging_class") in
  Promise_all2
    (HttpClient_get destinationsClient ("/cities/" +:+ JS.ToString city_id))
    (HttpClient_get pricingClient
       ("/rates?city_id=" +:+ JS.ToString city_id
        +:+ "&lodging_class=" +:+ JS.ToString lodging_class)).

(** The callback of [segments.map] in [GET /itineraries/:id]. *)
Definition enrich_segment (segment : Value) : Async Value :=
  let* cr := fetch_city_and_rates segment in
  let '(city, rates) := cr in
  let* name := sync (Obj.get city "name") in
  let* country_code := sync (Obj.get city "country_code") in
  let* currency := sync (Obj.get city "currency") in
  ret (JS.extend segment
         [ ("city_name", name);
           ("country_code", country_code);
           ("currency", currency);
           ("rates", JS.or rates (VArr [])) ]).

(** GET /composite/itineraries/:id - Get full itinerary with enriched data *)
Definition get_itinerary (itineraryId : string) : Handler :=
  route "Failed to fetch composite itinerary"
    (let* both :=
       Promise_all2
         (HttpClient_get itinerariesClient ("/itineraries/" +:+ itineraryId))
         (HttpClient_get itinerariesClient
            ("/itineraries/" +:+ itineraryId +:+ "/segments")) in
     let '(itinerary, segments) := both in
     let* items := sync (Obj.array_method segments "map") in
     let* enrichedSegments := Promise_all (List.map enrich_segment items) in
     ret {| code := 200;
            json := JS.extend itinerary [("segments", VArr enrichedSegments)] |}).

(** The callback of [seasons.reduce] in [GET /destinations]. *)
Definition group_season (acc : gmap string (list Value)) (season : Value)
  : Completion (gmap string (list Value)) :=
  let? city_id := Obj.get season "city_id" in
  let k := JS.ToString city_id in
  match acc !! k with
  | Some l => Normal (<[k := l ++ [season]]> acc)
  | None =>
      if Obj.inherited k
      then Throw (TypeError "acc[season.city_id].push is not a function")
      else Normal (<[k := [season]]> acc)
  end.

(** The callback of [cities.map] in [GET /destinations]. *)
Definition enrich_city (seasonsByCity : gmap string (list Value)) (city : Value)
  : Completion Value :=
  let? id := Obj.get city "id" in
  Normal (JS.extend city
            [("seasons", JS.or (Obj.lookup seasonsByCity (JS.ToString id))
                               (VArr []))]).

(** GET /composite/destinations - Get all cities with seasonal info *)
Definition get_destinations : Handler :=
  route "Failed to fetch destinations"
    (let* both :=
       Promise_all2
         (HttpClient_get destinationsClient "/cities?limit=100")
         (HttpClient_get destinationsClient "/seasons?limit=100") in
     let '(citiesResponse, seasonsResponse) := both in
     (* Extract data from paginated responses *)
     let* cities_data := sync (Obj.get citiesResponse "data") in
     let cities := JS.or cities_data citiesResponse in
     let* seasons_data := sync (Obj.get seasonsResponse "data") in
     let seasons := JS.or seasons_data seasonsResponse in
     (* Group seasons by city_id *)
     let* seasonsByCity := sync (Obj.reduce seasons group_season ∅) in
     (* Enrich cities with their seasons *)
     let* enrichedCities := sync (Obj.map cities (enrich_city seasonsByCity)) in
     ret {| code := 200; json := VArr enrichedCities |}).

(** [{ segment_index: seg.index, errors: seg.errors }] *)
Definition detail (seg : nat * SegmentValidation) : Value :=
  VObj [ ("segment_index", VNum (Number.of_Z (Z.of_nat (fst seg))));
         ("errors", VArr (seg_errors (snd seg))) ].

(** [segments.map((segment, index) => validateSegment(segment).then(result => ({ index, ...result })))] *)
Definition validate_indexed (segments : list Value)
  : list (Async (nat * SegmentValidation)) :=
  imap (fun index segment =>
          let* result := validateSegment segment in ret (index, result))
       segments.

(** POST /composite/itineraries - Create itinerary with segments (with FK validation) *)
Definition post_itineraries (req_body : Value) : Handler :=
  route "Failed to create composite itinerary"
    (let* itinerary := sync (Obj.get req_body "itinerary") in
     let* segments := sync (Obj.get req_body "segments") in
     if negb (JS.truthy itinerary) then
       ret {| code := 400; json := VObj [("error", VStr "Missing itinerary data")] |}
     else
       (* Validate all segments before creating anything *)
       let* rejected :=
         match nonempty_array segments with
         | Some items =>
             let* validationResults := Promise_all (validate_indexed items) in
             let invalidSegments :=
               List.filter (fun r => negb (seg_valid (snd r))) validationResults in
             if (0 <? length invalidSegments)%nat then
               ret (Some
                 {| code := 400;
                    json := VObj [ ("error", VStr "Segment validation failed");
                                   ("details", VArr (List.map detail invalidSegments)) ] |})
             else ret None
         | None => ret None
         end in
       match rejected with
       | Some reply => ret reply
       | None =>
           (* Create the itinerary first *)
           let* createdItinerary :=
             HttpClient_post itinerariesClient "/itineraries" itinerary in
           (* Create segments if provided *)
           let* createdSegments :=
             match nonempty_array segments with
             | Some items =>
                 Promise_all
                   (List.map
                      (fun segment =>
                         let* id := sync (Obj.get createdItinerary "id") in
                         HttpClient_post itinerariesClient
                           ("/itineraries/" +:+ JS.ToString id +:+ "/segments")
                           segment)
                      items)
             | None => ret []
             end in
           ret {| code := 201;
                  json := JS.extend createdItinerary
                            [("segments", VArr createdSegments)] |}
       end).

(** [1000 * 60 * 60 * 24] *)
Definition MS_PER_DAY : Number.t :=
  Number.mul (Number.mul (Number.mul (Number.of_Z 1000) (Number.of_Z 60))
                         (Number.of_Z 60)) (Number.of_Z 24).

(** [Math.ceil((endDate.getTime() - startDate.getTime()) / (1000 * 60 * 60 * 24))] *)
Definition nights_between (start_date end_date : Value) : Number.t :=
  let startDate := JS.Date_new start_date in
  let endDate := JS.Date_new end_date in
  Number.ceil (Number.div (Number.sub (JS.getTime endDate) (JS.getTime startDate))
                          MS_PER_DAY).

(** [Array.isArray(rates) && rates.length > 0 ? rates[0] : null] *)
Definition first_rate (rates : Value) : Value :=
  match rates with
  | VArr (rate :: _) => rate
  | _ => VNull
  end.

(** [rate ? parseFloat(rate.price_per_night) : 0] *)
Definition price_of (rate : Value) : Completion Number.t :=
  if JS.truthy rate then
    let? price := Obj.get rate "price_per_night" in
    Normal (JS.parseFloat price)
  else Normal Number.zero.

(** The callback of [segments.map] in [GET /quotes/:itinerary_id]. *)
Definition quote_segment (segment : Value) : Async Value :=
  let* cr := fetch_city_and_rates segment in
  let '(city, rates) := cr in
  (* Calculate nights *)
  let* start_date := sync (Obj.get segment "start_date") in
  let* end_date := sync (Obj.get segment "end_date") in
  let nights := nights_between start_date end_date in
  (* Get the rate (if available) *)
  let rate := first_rate rates in
  let* pricePerNight := sync (price_of rate) in
  let segmentTotal := Number.mul pricePerNight nights in
  let* segment_id := sync (Obj.get segment "id") in
  let* city_name := sync (Obj.get city "name") in
  let* lodging_class := sync (Obj.get segment "lodging_class") in
  let* currency := sync (Obj.get city "currency") in
  ret (VObj [ ("segment_id", segment_id);
              ("city_name", city_name);
              ("lodging_class", lodging_class);
              ("nights", VNum nights);
              ("price_per_night", VNum pricePerNight);
              ("currency", currency);
              ("total", VNum segmentTotal) ]).

(** [quote.total] of a quote built by [quote_segment]. *)
Definition quote_total (quote : Value) : Number.t :=
  match quote with
  | VObj o =>
      match JS.assoc "total" o with
      | Some (VNum n) => n
      | _ => Number.NaN
      end
  | _ => Number.NaN
  end.

(** [segmentQuotes.reduce((sum, quote) => sum + quote.total, 0)] *)
Definition grand_total (segmentQuotes : list Value) : Number.t :=
  fold_left (fun sum quote => Number.add sum (quote_total quote))
            segmentQuotes Number.zero.

(** GET /composite/quotes/:itinerary_id - Get pricing quotes for an itinerary *)
Definition get_quotes (itineraryId : string) : Handler :=
  route "Failed to calculate quotes"
    ((* Fetch segments *)
     let* segments :=
       HttpClient_get itinerariesClient
         ("/itineraries/" +:+ itineraryId +:+ "/segments") in
     let* len := sync (Obj.get segments "length") in
     if JS.strict_eq len (VNum Number.zero) then
       ret {| code := 200;
              json := VObj [("total", VNum Number.zero); ("segments", VArr [])] |}
     else
       (* Fetch city info and rates for each segment in parallel *)
       let* items := sync (Obj.array_method segments "map") in
       let* segmentQuotes := Promise_all (List.map quote_segment items) in
       let grandTotal := grand_total segmentQuotes in
       ret {| code := 200;
              json := VObj [ ("itinerary_id", VStr itineraryId);
                             ("total", VNum grandTotal);
                             ("segments", VArr segmentQuotes) ] |}).

End Router.

(** ** The specification's own words, as definitions

    These follow the specification, not the source; the theorems below
    compare them with the router. *)

Module Spec.

Definition field (k : string) (o : list (string * Value)) : Value :=
  default VUndefined (JS.assoc k o).

Section WithEngine.
Context {E : Engine}.

(** "nights = ceil((end_date - start_date) in whole days)" *)
Definition nights (segment : list (string * Value)) : Number.t :=
  Number.ceil
    (Number.div
       (Number.sub (JS.getTime (JS.Date_new (field "end_date" segment)))
                   (JS.getTime (JS.Date_new (field "start_date" segment))))
       (Number.of_Z Calendar.msPerDay)).

(** "pick the FIRST rate in the returned rate sequence if any exist
    else treat price-per-night as 0" *)
Definition price_per_night (rates : list (list (string * Value))) : Number.t :=
  match rates with
  | rate :: _ => JS.parseFloat (field "price_per_night" rate)
  | [] => Number.zero
  end.

(** "segment_total = price_per_night × nights" *)
Definition segment_total (segment : list (string * Value))
           (rates : list (list (string * Value))) : Number.t :=
  Number.mul (price_per_night rates) (nights segment).

(** "each segment quote carries segment_id, city_name, lodging_class,
    nights, price_per_night, currency, total" *)
Definition quote (segment city : list (string * Value))
           (rates : list (list (string * Value))) : Value :=
  VObj [ ("segment_id", field "id" segment);
         ("city_name", field "name" city);
         ("lodging_class", field "lodging_class" segment);
         ("nights", VNum (nights segment));
         ("price_per_night", VNum (price_per_night rates));
         ("currency", field "currency" city);
         ("total", VNum (segment_total segment rates)) ].

(** "Sum all segment totals (plain numeric accumulation)" *)
Definition sum (totals : list Number.t) : Number.t :=
  fold_left Number.add totals Number.zero.

(** The key a season is grouped under, and a city is looked up by. *)
Definition season_key (season : list (string * Value)) : string :=
  JS.ToString (field "city_id" season).



End WithEngine.

(** "Accept either a bare sequence or a {data: [...]} wrapper" *)
Inductive carries : Value -> list Value -> Prop :=
| carries_bare (l : list Value) : carries (VArr l) l
| carries_wrapped (o : list (string * Value)) (l : list Value) :
    JS.assoc "data" o = Some (VArr l) -> carries (VObj o) l.

(** A lodging class "may be represented either as a bare string or as an
    object carrying a class_name field": the name an entry stands for. *)
Definition class_name_of (entry : Value) : option string :=
  match entry with
  | VStr s => Some s
  | VObj o =>
      match JS.assoc "class_name" o with
      | Some (VStr s) => Some s
      | _ => None
      end
  | _ => None
  end.

Definition is_class_entry (entry : Value) : Prop :=
  match entry with
  | VStr _ | VObj _ => True
  | _ => False
  end.

(** "listing, for each invalid segment, its index and its full error
    list — ordering of this failure list follows original segment
    order" *)
Fixpoint failures (index : nat) (results : list SegmentValidation) : list Value :=
  match results with
  | [] => []
  | r :: rest =>
      if seg_valid r then failures (S index) rest
      else VObj [ ("segment_index", VNum (Number.of_Z (Z.of_nat index)));
                  ("errors", VArr (seg_errors r)) ]
           :: failures (S index) rest
  end.

(** "composes the two checks above plus local field presence checks
    ([city_id], [lodging_class], [start_date], [end_date] all required) and
    a date-ordering check": the error of each of the five checks, when it
    applies. A reference check has an outcome only for a field that is
    present. *)
Definition reference_errors (missing_message : string)
           (outcome : option RefValidation) : list Value :=
  match outcome with
  | None => [VStr missing_message]
  | Some checked =>
      if ref_valid checked then []
      else [match ref_error checked with Some s => VStr s | None => VUndefined end]
  end.

Definition presence_errors (missing_message : string) (field : Value) : list Value :=
  if JS.truthy field then [] else [VStr missing_message].

Definition order_errors {E : Engine} (start_date end_date : Value) : list Value :=
  if JS.truthy start_date && JS.truthy end_date
     && JS.Date_le (JS.Date_new end_date) (JS.Date_new start_date)
  then [VStr "end_date must be after start_date"]
  else [].

(** "Accumulates ALL applicable errors for one segment (does not
    short-circuit on first failure)": the errors of all five checks, in
    the order of the checks. *)
Definition applicable_errors {E : Engine} (start_date end_date : Value)
           (city lodging : option RefValidation) : list Value :=
  reference_errors "Segment missing city_id" city
  ++ reference_errors "Segment missing lodging_class" lodging
  ++ presence_errors "Segment missing start_date" start_date
  ++ presence_errors "Segment missing end_date" end_date
  ++ order_errors start_date end_date.

End Spec.

(** ** What the upstream answers *)

Section Answers.
Context {U : Upstream}.

(** A GET of [path] through [client] is answered with a success status
    and the JSON value [v]. *)
Definition serves (client : HttpClient) (path : string) (v : Value) : Prop :=
  exists st txt,
    fetch {| req_method := GET; req_url := baseUrl client +:+ path; req_body := None |}
    = Fetched {| status := st; statusText := txt; body := JsonBody v |}
    /\ (200 <= st <= 299)%N.

Context {E : Engine} {P : ProcessEnv}.

Definition city_path (segment : list (string * Value)) : string :=
  "/cities/" +:+ JS.ToString (Spec.field "city_id" segment).

Definition rates_path (segment : list (string * Value)) : string :=
  "/rates?city_id=" +:+ JS.ToString (Spec.field "city_id" segment)
  +:+ "&lodging_class=" +:+ JS.ToString (Spec.field "lodging_class" segment).

(** The two reads made for a segment are answered with [city] and
    [rates]. *)
Definition answers_for (segment : list (string * Value)) (city rates : Value) : Prop :=
  serves destinationsClient (city_path segment) city
  /\ serves pricingClient (rates_path segment) rates.


End Answers.

Definition GET_request (client : HttpClient) (path : string) : Request :=
  {| req_method := GET; req_url := baseUrl client +:+ path; req_body := None |}.

Definition is_read (r : Request) : Prop := req_method r = GET.

(** A computation that only issues reads, whatever its outcome. *)
Definition reads_only {A} (p : Async A) : Prop :=
  forall tr r tr', p tr = (r, tr') ->
    exists calls, tr' = tr ++ calls /\ Forall is_read calls.

(** A segment field is missing: reading it gives a falsy value. *)
Definition missing (segment : Value) (k : string) : Prop :=
  exists v, Obj.get segment k = Normal v /\ JS.truthy v = false.

(** A reference check inside [validateSegment]: on a field that is
    present it is run, from the requests [tr], and returns [outcome] with
    the requests [tr']; on a missing field it is not run and nothing is
    requested. *)
Definition checked (check : Value -> Async RefValidation) (field : Value)
           (tr : Trace) (outcome : option RefValidation) (tr' : Trace) : Prop :=
  if JS.truthy field
  then exists v, outcome = Some v /\ check field tr = (Normal v, tr')
  else outcome = None /\ tr' = tr.

(** ** Worked examples: an engine, an environment and upstream services *)

Module Scenario.

(** An engine for the examples: it writes a Number as its integer part
    and knows no date format beyond [YYYY-MM-DD]. No example formats a
    Number or parses another date format. *)
Definition engine : Engine := {|
  Number_toString n :=
    match Number.trunc n with
    | Some z => pretty z
    | None => "NaN"
    end;
  Date_parse_other _ := None
|}.

(** No variable set: the three default addresses. *)
Definition env : ProcessEnv := {|
  DESTINATIONS_MS_URL := None;
  PRICING_MS_URL := None;
  ITINERARIES_MS_URL := None
|}.

Definition ok (v : Value) : FetchResult :=
  Fetched {| status := 200; statusText := "OK"; body := JsonBody v |}.

Definition failed (st : N) (txt : string) : FetchResult :=
  Fetched {| status := st; statusText := txt;
             body := JsonBody (VObj [("error", VStr txt)]) |}.

Definition paris_segment : list (string * Value) :=
  [ ("city_id", VStr "paris"); ("lodging_class", VStr "standard");
    ("start_date", VStr "2024-01-01"); ("end_date", VStr "2024-01-04") ].

Definition paris : list (string * Value) :=
  [ ("id", VStr "paris"); ("name", VStr "Paris");
    ("country_code", VStr "FR"); ("currency", VStr "EUR") ].

Definition paris_rate : list (string * Value) := [ ("price_per_night", VStr "100.00") ].

(** The stored segment of itinerary [it2]: it ends before it starts. *)
Definition backwards_segment : list (string * Value) :=
  [ ("id", VStr "s9"); ("city_id", VStr "paris"); ("lodging_class", VStr "standard");
    ("start_date", VStr "2024-01-04"); ("end_date", VStr "2024-01-01") ].

(** The stored segment of itinerary [it3], with fields of its own. *)
Definition annotated_segment : list (string * Value) :=
  [ ("id", VStr "s1"); ("currency", VStr "stale"); ("city_id", VStr "paris");
    ("lodging_class", VStr "standard"); ("note", VStr "window seat") ].

Definition itinerary3 : list (string * Value) :=
  [ ("id", VStr "it3"); ("segments", VStr "stale"); ("title", VStr "Spring") ].

Definition upstream : Upstream := {|
  fetch r :=
    match req_method r with
    | GET =>
        if String.eqb (req_url r) "http://localhost:3003/itineraries/it1/segments"
        then ok (VArr [VObj paris_segment])
        else if String.eqb (req_url r) "http://localhost:3003/itineraries/it0/segments"
        then ok (VArr [])
        else if String.eqb (req_url r) "http://localhost:3003/itineraries/it2/segments"
        then ok (VArr [VObj paris_segment; VObj backwards_segment])
        else if String.eqb (req_url r) "http://localhost:3003/itineraries/it3"
        then ok (VObj itinerary3)
        else if String.eqb (req_url r) "http://localhost:3003/itineraries/it3/segments"
        then ok (VArr [VObj annotated_segment])
        else if String.eqb (req_url r) "http://localhost:3001/cities/paris"
        then ok (VObj paris)
        else if String.eqb (req_url r)
                  "http://localhost:3002/rates?city_id=paris&lodging_class=standard"
        then ok (VArr [VObj paris_rate])
        else if String.eqb (req_url r) "http://localhost:3002/lodging-classes"
        then ok (VArr [VStr "standard"; VObj [("class_name", VStr "deluxe")]])
        else if String.eqb (req_url r) "http://localhost:3001/cities?limit=100"
        then ok (VArr [VObj [("id", VStr "c1")]; VObj [("id", VStr "c2")]])
        else if String.eqb (req_url r) "http://localhost:3001/seasons?limit=100"
        then ok (VObj [("data", VArr [VObj [("city_id", VStr "c1")]])])
        else failed 404 "Not Found"
    | POST => failed 503 "Service Unavailable"
    end
|}.

(** The same services, with the lodging classes listed as objects. *)
Definition upstream_objects : Upstream := {|
  fetch r :=
    if String.eqb (req_url r) "http://localhost:3002/lodging-classes"
    then ok (VArr [VObj [("class_name", VStr "standard")]; VStr "deluxe"])
    else @fetch upstream r
|}.

(** A destinations service that is down: every read fails with 500. *)
Definition upstream_down : Upstream := {|
  fetch _ := failed 500 "Internal Server Error"
|}.

(** A create request whose second segment is empty. *)
Definition create_request : Value :=
  VObj [ ("itinerary", VObj [("title", VStr "Spring")]);
         ("segments", VArr [VObj paris_segment; VObj []]) ].

End Scenario.

(** ** Writes, and what a computation may issue *)

Definition POST_request (client : HttpClient) (path : string) (data : Value) : Request :=
  {| req_method := POST; req_url := baseUrl client +:+ path; req_body := Some data |}.

Section Writes.
Context {U : Upstream}.

(** A POST of [data] to [path] through [client] is answered with a
    success status and the JSON value [v]. *)
Definition creates (client : HttpClient) (path : string) (data v : Value) : Prop :=
  exists st txt,
    fetch (POST_request client path data)
    = Fetched {| status := st; statusText := txt; body := JsonBody v |}
    /\ (200 <= st <= 299)%N.

(** The response to [r] has a status outside 200..299. *)
Definition refused (r : Request) (st : N) (txt : string) : Prop :=
  exists b,
    fetch r = Fetched {| status := st; statusText := txt; body := b |}
    /\ (st < 200 \/ 299 < st)%N.

End Writes.

(** A computation whose requests all satisfy [Q], whatever its outcome. *)
Definition issues_only {A} (Q : Request -> Prop) (p : Async A) : Prop :=
  forall tr r tr', p tr = (r, tr') ->
    exists calls, tr' = tr ++ calls /\ Forall Q calls.

(** The same for a route handler. *)
Definition handler_issues_only (Q : Request -> Prop) (h : Handler) : Prop :=
  forall tr, exists calls, snd (h tr) = tr ++ calls /\ Forall Q calls.

(** The request is addressed to one of the three configured services:
    its URL is the service's base URL followed by an absolute path. *)
Definition to_service {P : ProcessEnv} (r : Request) : Prop :=
  exists client rest,
    In client [destinationsClient; pricingClient; itinerariesClient]
    /\ req_url r = baseUrl client +:+ "/" +:+ rest.

(** Every reply of the handler has one of the status codes [codes]. *)
Definition replies_with (codes : list N) (h : Handler) : Prop :=
  forall tr, In (code (fst (h tr))) codes.

(** The reply is an object whose first property is [error], a non-empty
    string. *)
Definition error_reply (r : Reply) : Prop :=
  exists msg rest, json r = VObj (("error"%string, VStr msg) :: rest) /\ msg <> EmptyString.

(** A computation whose values, when it returns, all satisfy [R]. *)
Definition returns_only {A} (R : A -> Prop) (p : Async A) : Prop :=
  forall tr a tr', p tr = (Normal a, tr') -> R a.

(** A read addressed to one of the configured services. *)
Definition read_of_service {P : ProcessEnv} (r : Request) : Prop :=
  is_read r /\ to_service r.

(** ** Upstream services given by a table *)

Module Cases.

Definition method_eqb (a b : Method) : bool :=
  match a, b with
  | GET, GET | POST, POST => true
  | _, _ => false
  end.

(** The first entry for the request's method and URL; 404 without one. *)
Fixpoint answer (table : list (Method * string * FetchResult)) (r : Request)
  : FetchResult :=
  match table with
  | [] => Scenario.failed 404 "Not Found"
  | (m, url, result) :: rest =>
      if method_eqb m (req_method r) && String.eqb url (req_url r)
      then result
      else answer rest r
  end.

Definition serving (table : list (Method * string * FetchResult)) : Upstream :=
  {| fetch := answer table |}.

Definition title : list (string * Value) := [("title", VStr "Spring")].

Definition created : list (string * Value) :=
  [("id", VStr "it7"); ("title", VStr "Spring")].

Definition stored_segment : list (string * Value) :=
  [("id", VStr "s1"); ("itinerary_id", VStr "it7")].

(** The reads that make [Scenario.paris_segment] valid. *)
Definition references : list (Method * string * FetchResult) :=
  [ (GET, "http://localhost:3001/cities/paris", Scenario.ok (VObj Scenario.paris));
    (GET, "http://localhost:3002/lodging-classes",
     Scenario.ok (VArr [VStr "standard"; VObj [("class_name", VStr "deluxe")]])) ].

(** An itineraries service that accepts every write. *)
Definition writable : Upstream :=
  serving (references ++
    [ (POST, "http://localhost:3003/itineraries", Scenario.ok (VObj created));
      (POST, "http://localhost:3003/itineraries/it7/segments",
       Scenario.ok (VObj stored_segment)) ]).

(** An itineraries service that creates itineraries but refuses their
    segments. *)
Definition segments_refused : Upstream :=
  serving (references ++
    [ (POST, "http://localhost:3003/itineraries", Scenario.ok (VObj created));
      (POST, "http://localhost:3003/itineraries/it7/segments",
       Scenario.failed 422 "Unprocessable Entity") ]).

(** An itineraries service whose answer to a creation carries no [id]. *)
Definition no_id : Upstream :=
  serving (references ++
    [ (POST, "http://localhost:3003/itineraries", Scenario.ok (VObj title)) ]).

(** A pricing service that wraps its lodging classes under [data]. *)
Definition wrapped_classes : Upstream :=
  serving
    [ (GET, "http://localhost:3002/lodging-classes",
       Scenario.ok (VObj [("data", VArr [VStr "standard"])])) ].

(** A destinations service with a season of the city "constructor". *)
Definition constructor_season : Upstream :=
  serving
    [ (GET, "http://localhost:3001/cities?limit=100",
       Scenario.ok (VArr [VObj [("id", VStr "c1")]]));
      (GET, "http://localhost:3001/seasons?limit=100",
       Scenario.ok (VArr [ VObj [("city_id", VStr "c1")];
                           VObj [("city_id", VStr "constructor")] ])) ].

(** A destinations service whose cities come under [items]. *)
Definition cities_under_items : Upstream :=
  serving
    [ (GET, "http://localhost:3001/cities?limit=100",
       Scenario.ok (VObj [("items", VArr [VObj [("id", VStr "c1")]])]));
      (GET, "http://localhost:3001/seasons?limit=100", Scenario.ok (VArr [])) ].





(** An itineraries service that wraps the segments under [data]. *)
Definition wrapped_segments : Upstream :=
  serving
    [ (GET, "http://localhost:3003/itineraries/it5",
       Scenario.ok (VObj [("id", VStr "it5")]));
      (GET, "http://localhost:3003/itineraries/it5/segments",
       Scenario.ok (VObj [("data", VArr [VObj Scenario.paris_segment])])) ].

Definition create_paris : Value :=
  VObj [ ("itinerary", VObj title); ("segments", VArr [VObj Scenario.paris_segment]) ].

End Cases.

(** * Properties *)

(** ** The built-ins at known values *)

Example ceil_values :
  Number.ceil (Number.div (Number.of_Z 5) (Number.of_Z 2)) = Number.of_Z 3
  /\ Number.ceil (Number.div (Number.of_Z (-5)) (Number.of_Z 2)) = Number.of_Z (-2)
  /\ Number.ceil (Number.div (Number.of_Z (-1)) (Number.of_Z 2)) = S754_zero true
  /\ Number.ceil (Number.div (Number.of_Z 1) (Number.of_Z 3)) = Number.of_Z 1
  /\ Number.ceil (Number.of_Z 7) = Number.of_Z 7
  /\ Number.ceil Number.NaN = Number.NaN.
Proof. repeat split; reflexivity. Qed.

Example parseFloat_values :
  Str.parseFloat "100.00" = Number.of_Z 100
  /\ Str.parseFloat "  42abc" = Number.of_Z 42
  /\ Str.parseFloat "-1.5e1" = Number.of_Z (-15)
  /\ Str.parseFloat ".5" = Number.div (Number.of_Z 1) (Number.of_Z 2)
  /\ Str.parseFloat "0.1" = S754_finite false 7205759403792794 (-56)
  /\ Str.parseFloat "1e" = Number.of_Z 1
  /\ Str.parseFloat "-0" = S754_zero true
  /\ Str.parseFloat "Infinity" = S754_infinity false
  /\ Str.parseFloat EmptyString = Number.NaN
  /\ Str.parseFloat "abc" = Number.NaN.
Proof. repeat split; reflexivity. Qed.

Example date_values :
  Calendar.parse_date_only "1970-01-01" = Some 0
  /\ Calendar.parse_date_only "2024-01-01" = Some 1704067200000
  /\ Calendar.parse_date_only "2024-02-29" = Some 1709164800000
  /\ Calendar.parse_date_only "2023-02-29" = None
  /\ Calendar.parse_date_only "2024-1-1" = None
  /\ Calendar.parse_date_only EmptyString = None.
Proof. repeat split; reflexivity. Qed.

Example includes_values :
  Str.includes "404" "HTTP 404: Not Found from http://localhost:3001/cities/x" = true
  /\ Str.includes "404" "fetch failed" = false
  /\ Str.includes "404" "HTTP 500: Internal Server Error from http://localhost:3001/cities/1404"
     = true.
Proof. repeat split; reflexivity. Qed.

Example MS_PER_DAY_is_86400000 : MS_PER_DAY = Number.of_Z 86400000.
Proof. reflexivity. Qed.

(** ** The promise monad *)

Section AsyncFacts.
Context {A B : Type}.

Lemma bind_normal (p : Async A) (k : A -> Async B) tr a tr1 :
  p tr = (Normal a, tr1) -> bind p k tr = k a tr1.
Proof. unfold bind. now intros ->. Qed.

Lemma bind_throw (p : Async A) (k : A -> Async B) tr e tr1 :
  p tr = (Throw e, tr1) -> bind p k tr = (Throw e, tr1).
Proof. unfold bind. now intros ->. Qed.

Lemma bind_normal_inv (p : Async A) (k : A -> Async B) tr b tr' :
  bind p k tr = (Normal b, tr') ->
  exists a tr1, p tr = (Normal a, tr1) /\ k a tr1 = (Normal b, tr').
Proof.
  unfold bind. destruct (p tr) as [[a|e] tr1]; intros H.
  - now exists a, tr1.
  - discriminate.
Qed.

Lemma bind_sync (c : Completion A) (k : A -> Async B) tr a :
  c = Normal a -> bind (sync c) k tr = k a tr.
Proof. now intros ->. Qed.

End AsyncFacts.

(** Inverts one [bind] in a hypothesis that says a computation returned. *)
Ltac invert_bind H :=
  let a := fresh "a" in
  let tr1 := fresh "tr" in
  let Hp := fresh "Hp" in
  apply bind_normal_inv in H; destruct H as (a & tr1 & Hp & H).

Section ReadsOnly.
Context {A B : Type}.

Lemma reads_only_sync (c : Completion A) : reads_only (sync c).
Proof.
  intros tr r tr' [= _ <-]. exists []. split; [now rewrite app_nil_r | constructor].
Qed.

Lemma reads_only_ret (a : A) : reads_only (ret a).
Proof. apply (reads_only_sync (Normal a)). Qed.

Lemma reads_only_throw (e : JSError) : reads_only (@throw A e).
Proof. apply (reads_only_sync (Throw e)). Qed.

Lemma reads_only_bind (p : Async A) (k : A -> Async B) :
  reads_only p -> (forall a, reads_only (k a)) -> reads_only (bind p k).
Proof.
  intros Hp Hk tr r tr'. unfold bind.
  destruct (p tr) as [[a|e] tr1] eqn:Ep; intros H;
    destruct (Hp _ _ _ Ep) as (c1 & -> & F1).
  - destruct (Hk a _ _ _ H) as (c2 & -> & F2).
    exists (c1 ++ c2). split; [now rewrite app_assoc | now apply Forall_app].
  - injection H as <- <-. now exists c1.
Qed.

Lemma reads_only_try_catch (p : Async A) (h : JSError -> Async A) :
  reads_only p -> (forall e, reads_only (h e)) -> reads_only (try_catch p h).
Proof.
  intros Hp Hh tr r tr'. unfold try_catch.
  destruct (p tr) as [[a|e] tr1] eqn:Ep; intros H;
    destruct (Hp _ _ _ Ep) as (c1 & -> & F1).
  - injection H as <- <-. now exists c1.
  - destruct (Hh e _ _ _ H) as (c2 & -> & F2).
    exists (c1 ++ c2). split; [now rewrite app_assoc | now apply Forall_app].
Qed.

End ReadsOnly.

Lemma reads_only_Promise_all {A} (ps : list (Async A)) :
  Forall reads_only ps -> reads_only (Promise_all ps).
Proof.
  induction 1 as [|p ps Hp _ IH]; [apply reads_only_ret|].
  intros tr r tr'. simpl.
  destruct (p tr) as [r1 tr1] eqn:E1.
  destruct (Promise_all ps tr1) as [rs tr2] eqn:E2.
  intros [= _ <-].
  destruct (Hp _ _ _ E1) as (c1 & -> & F1).
  destruct (IH _ _ _ E2) as (c2 & -> & F2).
  exists (c1 ++ c2). split; [now rewrite app_assoc | now apply Forall_app].
Qed.

(** [Promise.all] over members that all fulfil. *)
Lemma Promise_all_normal {A B} (f : A -> Async B) (l : list A) tr rs tr' :
  Promise_all (List.map f l) tr = (Normal rs, tr') ->
  length rs = length l.
Proof.
  revert tr rs tr'. induction l as [|x l IH]; intros tr rs tr'; simpl.
  - now intros [= <- _].
  - destruct (f x tr) as [r1 tr1]. destruct (Promise_all (List.map f l) tr1) as [r2 tr2] eqn:E2.
    destruct r1 as [a|e]; destruct r2 as [l2|e2]; intros [= <- _]; simpl.
    f_equal. eauto.
Qed.

(** ** The HTTP client *)

Section ClientFacts.
Context {U : Upstream}.

Lemma HttpClient_get_serves client path v tr :
  serves client path v ->
  HttpClient_get client path tr = (Normal v, tr ++ [GET_request client path]).
Proof.
  intros (st & txt & Hf & Hst).
  unfold HttpClient_get, bind, js_fetch. rewrite Hf. unfold response_ok. simpl.
  replace ((200 <=? st)%N && (st <=? 299)%N) with true; [reflexivity|].
  symmetry. apply andb_true_iff. split; apply N.leb_le; lia.
Qed.

Lemma HttpClient_get_reads_only client path : reads_only (HttpClient_get client path).
Proof.
  intros tr r tr'. unfold HttpClient_get, bind, js_fetch.
  assert (Hc : Forall is_read [GET_request client path])
    by (repeat constructor).
  destruct (fetch _) as [m|response].
  - intros [= _ <-]. eexists. split; [reflexivity | exact Hc].
  - destruct (negb (response_ok response)).
    + intros [= _ <-]. eexists. split; [reflexivity | exact Hc].
    + unfold response_json. destruct (body response); intros [= _ <-];
        (eexists; split; [reflexivity | exact Hc]).
Qed.

(** A response with status 404 makes [get] throw an error whose message
    starts with ["HTTP 404"]. *)
Lemma HttpClient_get_404 client path txt b tr :
  fetch (GET_request client path)
    = Fetched {| status := 404; statusText := txt; body := b |} ->
  HttpClient_get client path tr
    = (Throw (Error ("HTTP 404: " +:+ txt +:+ " from " +:+ baseUrl client +:+ path)),
       tr ++ [GET_request client path]).
Proof.
  intros Hf. unfold HttpClient_get, bind, js_fetch, GET_request in *.
  rewrite Hf. reflexivity.
Qed.

End ClientFacts.

(** ** The validation helpers *)

Section ValidationFacts.
Context {E : Engine} {U : Upstream} {P : ProcessEnv}.

Lemma validateCityExists_reads_only cityId : reads_only (validateCityExists cityId).
Proof.
  unfold validateCityExists. apply reads_only_try_catch.
  - apply reads_only_bind; [apply HttpClient_get_reads_only|].
    intros _. apply reads_only_ret.
  - intros e. destruct (Str.includes "404" (err_message e));
      [apply reads_only_ret | apply reads_only_throw].
Qed.

Lemma validateLodgingClass_reads_only lodgingClass :
  reads_only (validateLodgingClass lodgingClass).
Proof.
  unfold validateLodgingClass. apply reads_only_try_catch.
  - apply reads_only_bind; [apply HttpClient_get_reads_only|].
    intros classes. apply reads_only_bind; [apply reads_only_sync|].
    intros b. destruct (negb b); apply reads_only_ret.
  - intros e. apply reads_only_throw.
Qed.

Lemma validateSegment_reads_only segment : reads_only (validateSegment segment).
Proof.
  unfold validateSegment.
  apply reads_only_bind; [apply reads_only_sync|]. intros city_id.
  apply reads_only_bind.
  { destruct (negb (JS.truthy city_id)); [apply reads_only_ret|].
    apply reads_only_bind; [apply validateCityExists_reads_only|].
    intros cv. destruct (negb (ref_valid cv)); apply reads_only_ret. }
  intros errors1.
  apply reads_only_bind; [apply reads_only_sync|]. intros lodging_class.
  apply reads_only_bind.
  { destruct (negb (JS.truthy lodging_class)); [apply reads_only_ret|].
    apply reads_only_bind; [apply validateLodgingClass_reads_only|].
    intros lv. destruct (negb (ref_valid lv)); apply reads_only_ret. }
  intros errors2.
  apply reads_only_bind; [apply reads_only_sync|]. intros start_date.
  apply reads_only_bind; [apply reads_only_sync|]. intros end_date.
  apply reads_only_ret.
Qed.

(** A not-found status is reported as an invalid reference.  *)
Lemma validateCityExists_404 cityId txt b tr :
  fetch (GET_request destinationsClient ("/cities/" +:+ JS.ToString cityId))
    = Fetched {| status := 404; statusText := txt; body := b |} ->
  fst (validateCityExists cityId tr)
    = Normal {| ref_valid := false;
                ref_error := Some ("City with ID '" +:+ JS.ToString cityId
                                   +:+ "' does not exist") |}.
Proof.
  intros Hf. unfold validateCityExists, try_catch.
  rewrite (bind_throw _ _ _ _ _ (HttpClient_get_404 _ _ _ _ tr Hf)).
  reflexivity.
Qed.

(** A failure whose message does not contain ["404"] propagates unchanged. *)
Lemma validateCityExists_rethrows cityId tr e tr' :
  HttpClient_get destinationsClient ("/cities/" +:+ JS.ToString cityId) tr
    = (Throw e, tr') ->
  Str.includes "404" (err_message e) = false ->
  validateCityExists cityId tr = (Throw e, tr').
Proof.
  intros Hg Hm. unfold validateCityExists, try_catch.
  rewrite (bind_throw _ _ _ _ _ Hg), Hm. reflexivity.
Qed.

(** C3. For every segment whose two dates are present and denote instants
    with [end_date] equal to or earlier than [start_date], whatever its
    other fields are and whatever the reference checks found, every
    result of segment validation is invalid and lists
    'end_date must be after start_date'. *)
Theorem validateSegment_date_order
    (segment start_date end_date : Value) (ts te : Z) tr r tr' :
  Obj.get segment "start_date" = Normal start_date ->
  Obj.get segment "end_date" = Normal end_date ->
  JS.truthy start_date = true ->
  JS.truthy end_date = true ->
  JS.Date_new start_date = Some ts ->
  JS.Date_new end_date = Some te ->
  te <= ts ->
  validateSegment segment tr = (Normal r, tr') ->
  In (VStr "end_date must be after start_date") (seg_errors r)
  /\ seg_valid r = false.
Proof.
  intros Hs He Ts Te Ds De Hle H.
  unfold validateSegment in H.
  invert_bind H. invert_bind H. invert_bind H. invert_bind H.
  rewrite (bind_sync _ _ _ _ Hs) in H.
  rewrite (bind_sync _ _ _ _ He) in H.
  rewrite Ts, Te, Ds, De in H. simpl in H.
  assert (Hb : (te <=? ts) = true) by (apply Z.leb_le; lia).
  rewrite Hb in H. injection H as <- _. simpl. split.
  - apply in_or_app. right. now left.
  - rewrite length_app. simpl. apply Nat.eqb_neq. lia.
Qed.

(** A segment whose four fields are all missing: the four missing-field
    errors, in the order of the checks, and no upstream request. *)
Lemma validateSegment_all_missing (segment : Value) tr :
  missing segment "city_id" ->
  missing segment "lodging_class" ->
  missing segment "start_date" ->
  missing segment "end_date" ->
  validateSegment segment tr
  = (Normal {| seg_valid := false;
               seg_errors := [ VStr "Segment missing city_id";
                               VStr "Segment missing lodging_class";
                               VStr "Segment missing start_date";
                               VStr "Segment missing end_date" ] |},
     tr).
Proof.
  intros (c & Hc & Fc) (l & Hl & Fl) (s & Hs & Fs) (e & He & Fe).
  unfold validateSegment.
  rewrite (bind_sync _ _ _ _ Hc), Fc. simpl. unfold bind at 1. simpl.
  rewrite (bind_sync _ _ _ _ Hl), Fl. simpl. unfold bind at 1. simpl.
  rewrite (bind_sync _ _ _ _ Hs), (bind_sync _ _ _ _ He), Fs, Fe.
  reflexivity.
Qed.

(** One reference step of [validateSegment]: the check is run exactly on
    a field that is present, and the step appends that check's error, if
    any, to the errors found so far. *)
Lemma reference_step (check : Value -> Async RefValidation) (field : Value)
    (missing_message : string) (errors0 : list Value) tr errors tr' :
  (if negb (JS.truthy field) then
     ret (errors0 ++ [VStr missing_message])
   else
     let* validation := check field in
     if negb (ref_valid validation)
     then ret (errors0 ++ [non_null (ref_error validation)])
     else ret errors0) tr = (Normal errors, tr') ->
  exists outcome,
    checked check field tr outcome tr'
    /\ errors = errors0 ++ Spec.reference_errors missing_message outcome.
Proof.
  unfold checked. destruct (JS.truthy field); simpl.
  - intros H. invert_bind H. exists (Some a). split; [exists a|].
    + destruct (ref_valid a); simpl in H; now injection H as _ <-.
    + simpl. destruct (ref_valid a); simpl in H; injection H as <- _;
        [now rewrite app_nil_r | reflexivity].
  - intros [= <- <-]. now exists None.
Qed.

(** C8. Segment validation accumulates every applicable error and stops
    at none. Whenever validation returns, the two reference checks have
    each been run exactly when their field is present (a missing
    reference is not looked up), and the error list is, in the order of
    the checks, the error of the city check, of the lodging-class check,
    of the presence of [start_date], of the presence of [end_date] and of
    the date order, each one whenever it applies and whatever the others
    found; the result is valid exactly when that list is empty. For a
    segment missing all four fields the result is therefore invalid with
    exactly the four missing-field errors, and no request was issued. *)
Theorem validateSegment_accumulates (segment : Value) tr :
  (forall r tr',
     validateSegment segment tr = (Normal r, tr') ->
     exists (city_id lodging_class start_date end_date : Value)
            (city lodging : option RefValidation) (tr1 : Trace),
       Obj.get segment "city_id" = Normal city_id
       /\ Obj.get segment "lodging_class" = Normal lodging_class
       /\ Obj.get segment "start_date" = Normal start_date
       /\ Obj.get segment "end_date" = Normal end_date
       /\ checked validateCityExists city_id tr city tr1
       /\ checked validateLodgingClass lodging_class tr1 lodging tr'
       /\ seg_errors r = Spec.applicable_errors start_date end_date city lodging
       /\ (seg_valid r = true <-> seg_errors r = []))
  /\ (missing segment "city_id" ->
      missing segment "lodging_class" ->
      missing segment "start_date" ->
      missing segment "end_date" ->
      validateSegment segment tr
      = (Normal {| seg_valid := false;
                   seg_errors := [ VStr "Segment missing city_id";
                                   VStr "Segment missing lodging_class";
                                   VStr "Segment missing start_date";
                                   VStr "Segment missing end_date" ] |},
         tr)).
Proof.
  split; [|apply validateSegment_all_missing].
  intros r tr' H. unfold validateSegment in H.
  invert_bind H. injection Hp as Hc <-.
  invert_bind H. rename Hp into Hcity.
  invert_bind H. injection Hp as Hl <-.
  invert_bind H. rename Hp into Hlodging.
  invert_bind H. injection Hp as Hs <-.
  invert_bind H. injection Hp as He <-.
  injection H as <- <-.
  apply reference_step in Hcity as (city & Ccity & ->).
  apply reference_step in Hlodging as (lodging & Clodging & ->).
  exists a, a1, a3, a4, city, lodging, tr0.
  repeat (split; [assumption|]).
  simpl seg_errors. simpl seg_valid. split.
  - unfold Spec.applicable_errors, Spec.presence_errors, Spec.order_errors.
    destruct (JS.truthy a3), (JS.truthy a4); simpl;
      try destruct (JS.Date_le _ _); simpl;
      now rewrite ?app_nil_r, <- ?app_assoc.
  - rewrite Nat.eqb_eq. apply length_zero_iff_nil.
Qed.

End ValidationFacts.

Section LodgingClassFacts.
Context {E : Engine} {P : ProcessEnv}.

Lemma eqb_decide_name (s q : string) :
  String.eqb s q = bool_decide (Some s = Some q).
Proof.
  destruct (String.eqb_spec s q) as [->|Hne].
  - now rewrite bool_decide_true.
  - rewrite bool_decide_false; [reflexivity | congruence].
Qed.

(** On one entry the callback compares the name the entry stands for. *)
Lemma is_class_entry_name (entry : Value) (name : string) :
  Spec.is_class_entry entry ->
  is_class (VStr name) entry
  = Normal (bool_decide (Spec.class_name_of entry = Some name)).
Proof.
  destruct entry as [| |b|n|s|l|o|f]; simpl; try contradiction; intros _.
  - unfold is_class. simpl. now rewrite eqb_decide_name.
  - unfold is_class. simpl. destruct (JS.assoc "class_name" o) as [[| |b|n|s|l|o'|f]|];
      simpl; try reflexivity.
    now rewrite eqb_decide_name.
Qed.

Lemma some_is_class (classes : list Value) (name : string) :
  Forall Spec.is_class_entry classes ->
  Obj.some (VArr classes) (is_class (VStr name))
  = Normal (bool_decide (Some name ∈ List.map Spec.class_name_of classes)).
Proof.
  unfold Obj.some. simpl.
  induction 1 as [|entry classes He _ IH]; simpl.
  - reflexivity.
  - rewrite (is_class_entry_name _ _ He). simpl.
    destruct (decide (Spec.class_name_of entry = Some name)) as [Heq|Hne].
    + rewrite (bool_decide_true _ Heq), bool_decide_true; [reflexivity|].
      rewrite Heq. apply list_elem_of_here.
    + rewrite (bool_decide_false _ Hne), IH. f_equal.
      apply bool_decide_ext. rewrite elem_of_cons. intuition congruence.
Qed.

(** The check, once the pricing service has answered with a list of
    entries: it depends on the names the entries stand for and nothing
    else. *)
Lemma validateLodgingClass_served {U : Upstream} (classes : list Value) (name : string) tr :
  serves pricingClient "/lodging-classes" (VArr classes) ->
  Forall Spec.is_class_entry classes ->
  validateLodgingClass (VStr name) tr
  = (Normal
       (if bool_decide (Some name ∈ List.map Spec.class_name_of classes)
        then {| ref_valid := true; ref_error := None |}
        else {| ref_valid := false;
                ref_error := Some ("Lodging class '" +:+ name +:+ "' does not exist") |}),
     tr ++ [GET_request pricingClient "/lodging-classes"]).
Proof.
  intros Hs Hc. unfold validateLodgingClass, try_catch.
  rewrite (bind_normal _ _ _ _ _ (HttpClient_get_serves _ _ _ tr Hs)).
  rewrite (bind_sync _ _ _ _ (some_is_class _ name Hc)).
  now destruct (bool_decide _).
Qed.

(** C5. Two lodging-class lists whose entries stand for the same names,
    position by position, each entry a bare string or an object with a
    [class_name], give the same result for every class name; and a name
    that no entry stands for gives the invalid result
    "Lodging class '<name>' does not exist", not an exception. *)
Theorem validateLodgingClass_representation
    (U1 U2 : Upstream) (classes1 classes2 : list Value) (name : string) tr :
  @serves U1 pricingClient "/lodging-classes" (VArr classes1) ->
  @serves U2 pricingClient "/lodging-classes" (VArr classes2) ->
  Forall Spec.is_class_entry classes1 ->
  Forall Spec.is_class_entry classes2 ->
  List.map Spec.class_name_of classes1 = List.map Spec.class_name_of classes2 ->
  @validateLodgingClass E U1 P (VStr name) tr
  = @validateLodgingClass E U2 P (VStr name) tr
  /\ (~ In (Some name) (List.map Spec.class_name_of classes1) ->
      fst (@validateLodgingClass E U1 P (VStr name) tr)
      = Normal {| ref_valid := false;
                  ref_error := Some ("Lodging class '" +:+ name
                                     +:+ "' does not exist") |}).
Proof.
  intros S1 S2 C1 C2 Hnames.
  rewrite (validateLodgingClass_served (U:=U1) _ _ _ S1 C1).
  rewrite (validateLodgingClass_served (U:=U2) _ _ _ S2 C2).
  rewrite Hnames. split; [reflexivity|].
  intros Hn.
  rewrite bool_decide_false; [reflexivity | now rewrite list_elem_of_In].
Qed.

End LodgingClassFacts.

(** C4, where the router departs from it. The destinations service answers
    the read of city "404" with status 500, not 404; the error message
    carries the URL, which contains "404", and the check reports the city
    as not existing instead of rethrowing. *)
Lemma validateCityExists_500_reported_missing :
  @fetch Scenario.upstream_down
     (GET_request (@destinationsClient Scenario.env) "/cities/404")
  = Fetched {| status := 500; statusText := "Internal Server Error";
               body := JsonBody (VObj [("error", VStr "Internal Server Error")]) |}
  /\ @validateCityExists Scenario.engine Scenario.upstream_down Scenario.env (VStr "404") []
     = (Normal {| ref_valid := false;
                  ref_error := Some "City with ID '404' does not exist" |},
        [GET_request (@destinationsClient Scenario.env) "/cities/404"]).
Proof. split; reflexivity. Qed.

(** ** Binary64 arithmetic: signs and ranges *)

Module NumberFacts.
Import Number.

(** *** Binary digits *)












(** *** Shifting right *)








Lemma fexp_le (k b : Z) : k - prec <= b -> emin prec emax <= b -> fexp prec emax k <= b.
Proof. unfold fexp. lia. Qed.




(** *** Alignment and rounding of an integer mantissa *)





(** *** Integers as Numbers *)






(** *** The difference of two instants, the earlier one first *)


(** *** Whole days *)





(** *** Exact results on integers *)












End NumberFacts.

(** ** Fan-out over a list *)

Lemma Promise_all_map {A B} (f : A -> Async B) (g : A -> B) (calls : A -> Trace)
    (l : list A) :
  Forall (fun x => forall tr, f x tr = (Normal (g x), tr ++ calls x)) l ->
  forall tr,
    Promise_all (List.map f l) tr
    = (Normal (List.map g l), tr ++ concat (List.map calls l)).
Proof.
  induction 1 as [|x l Hx _ IH]; intros tr; simpl.
  - now rewrite app_nil_r.
  - rewrite Hx, IH. now rewrite app_assoc.
Qed.

Lemma Promise_all2_normal {A B} (p : Async A) (q : Async B) tr a tr1 b tr2 :
  p tr = (Normal a, tr1) -> q tr1 = (Normal b, tr2) ->
  Promise_all2 p q tr = (Normal (a, b), tr2).
Proof. unfold Promise_all2. now intros -> ->. Qed.

(** ** Quotes *)

Section QuoteFacts.
Context {E : Engine} {U : Upstream} {P : ProcessEnv}.

Lemma fetch_city_and_rates_answers segment city rates tr :
  answers_for segment city rates ->
  fetch_city_and_rates (VObj segment) tr
  = (Normal (city, rates),
     tr ++ [ GET_request destinationsClient (city_path segment);
             GET_request pricingClient (rates_path segment) ]).
Proof.
  intros [Hc Hr]. unfold fetch_city_and_rates.
  rewrite (bind_sync _ _ _ (Spec.field "city_id" segment)) by reflexivity.
  rewrite (bind_sync _ _ _ (Spec.field "lodging_class" segment)) by reflexivity.
  fold (city_path segment). fold (rates_path segment).
  rewrite (Promise_all2_normal _ _ _ _ _ _ _
             (HttpClient_get_serves _ _ _ tr Hc)
             (HttpClient_get_serves _ _ _ _ Hr)).
  now rewrite <- app_assoc.
Qed.




(** C6. When the itinerary's segment list is fetched and is empty, the
    reply is [{total: 0, segments: []}] and the segment read is the only
    request issued: no destinations or pricing request. *)
Theorem get_quotes_no_segments (itineraryId : string) tr :
  serves itinerariesClient ("/itineraries/" +:+ itineraryId +:+ "/segments") (VArr []) ->
  get_quotes itineraryId tr
  = ({| code := 200;
        json := VObj [("total", VNum Number.zero); ("segments", VArr [])] |},
     tr ++ [GET_request itinerariesClient
              ("/itineraries/" +:+ itineraryId +:+ "/segments")]).
Proof.
  intros Hs. unfold get_quotes, route.
  rewrite (bind_normal _ _ _ _ _ (HttpClient_get_serves _ _ _ tr Hs)).
  reflexivity.
Qed.







End QuoteFacts.

(** ** Object properties *)

Lemma assoc_set_field_eq (k : string) (v : Value) (o : list (string * Value)) :
  JS.assoc k (JS.set_field k v o) = Some v.
Proof.
  induction o as [|[k' v'] o IH]; simpl.
  - now rewrite String.eqb_refl.
  - destruct (String.eqb k' k) eqn:Ek; simpl.
    + now rewrite String.eqb_refl.
    + now rewrite Ek.
Qed.

Lemma assoc_set_field_ne (k k0 : string) (v : Value) (o : list (string * Value)) :
  k <> k0 -> JS.assoc k0 (JS.set_field k v o) = JS.assoc k0 o.
Proof.
  intros Hne. induction o as [|[k' v'] o IH]; simpl.
  - now apply String.eqb_neq in Hne as ->.
  - destruct (String.eqb k' k) eqn:Ek; simpl.
    + apply String.eqb_eq in Ek as ->.
      now apply String.eqb_neq in Hne as ->.
    + now rewrite IH.
Qed.

(** ** The composite itinerary *)

Section ItineraryFacts.
Context {E : Engine} {U : Upstream} {P : ProcessEnv}.

Lemma enrich_segment_answers (segment city : list (string * Value)) (rates : Value) tr :
  answers_for segment (VObj city) rates ->
  enrich_segment (VObj segment) tr
  = (Normal
       (VObj (JS.set_field "rates" (JS.or rates (VArr []))
                (JS.set_field "currency" (Spec.field "currency" city)
                   (JS.set_field "country_code" (Spec.field "country_code" city)
                      (JS.set_field "city_name" (Spec.field "name" city) segment))))),
     tr ++ [ GET_request destinationsClient (city_path segment);
             GET_request pricingClient (rates_path segment) ]).
Proof.
  intros Ha. unfold enrich_segment.
  rewrite (bind_normal _ _ _ _ _ (fetch_city_and_rates_answers _ _ _ tr Ha)).
  reflexivity.
Qed.

(** C10. The reply to a composite-itinerary read has every field of
    the fetched itinerary other than [segments] unchanged, and under
    [segments] one object per stored segment, in order, in which every
    field of the stored segment other than [city_name], [country_code],
    [currency] and [rates] is unchanged (present with the same value, or
    absent), and those four carry the city's name, country code and
    currency and the rates (an empty array when the rates are falsy). *)
Theorem get_itinerary_preserves (itineraryId : string)
    (itinerary : list (string * Value))
    (stays : list (list (string * Value) * list (string * Value) * Value)) tr :
  serves itinerariesClient ("/itineraries/" +:+ itineraryId) (VObj itinerary) ->
  serves itinerariesClient ("/itineraries/" +:+ itineraryId +:+ "/segments")
         (VArr (List.map (fun '(s, _, _) => VObj s) stays)) ->
  Forall (fun '(s, c, r) => answers_for s (VObj c) r) stays ->
  exists (reply : list (string * Value)) (enriched : list (list (string * Value))),
    fst (get_itinerary itineraryId tr) = {| code := 200; json := VObj reply |}
    /\ (forall k, k <> "segments"%string -> JS.assoc k reply = JS.assoc k itinerary)
    /\ JS.assoc "segments" reply = Some (VArr (List.map VObj enriched))
    /\ Forall2
         (fun '(s, c, r) e =>
            (forall k, ~ In k ["city_name"; "country_code"; "currency"; "rates"]%string ->
                       JS.assoc k e = JS.assoc k s)
            /\ JS.assoc "city_name" e = Some (Spec.field "name" c)
            /\ JS.assoc "country_code" e = Some (Spec.field "country_code" c)
            /\ JS.assoc "currency" e = Some (Spec.field "currency" c)
            /\ JS.assoc "rates" e = Some (JS.or r (VArr [])))
         stays enriched.
Proof.
  intros Hi Hs Ha.
  set (enrich :=
         fun x : list (string * Value) * list (string * Value) * Value =>
           let '(s, c, r) := x in
           JS.set_field "rates" (JS.or r (VArr []))
             (JS.set_field "currency" (Spec.field "currency" c)
                (JS.set_field "country_code" (Spec.field "country_code" c)
                   (JS.set_field "city_name" (Spec.field "name" c) s)))).
  exists (JS.set_field "segments" (VArr (List.map VObj (List.map enrich stays))) itinerary),
         (List.map enrich stays).
  split; [|split; [|split]].
  - unfold get_itinerary, route.
    rewrite (bind_normal _ _ _ _ _
               (Promise_all2_normal _ _ _ _ _ _ _
                  (HttpClient_get_serves _ _ _ tr Hi)
                  (HttpClient_get_serves _ _ _ _ Hs))).
    set (items := List.map (fun '(s, _, _) => VObj s) stays).
    rewrite (bind_sync (Obj.array_method (VArr items) "map") _ _ items) by reflexivity.
    subst items. rewrite map_map.
    rewrite (bind_normal _ _ _ _ _
      (Promise_all_map (fun x => enrich_segment (let '(s, _, _) := x in VObj s))
         (fun x => VObj (enrich x))
         (fun '(s, _, _) => [ GET_request destinationsClient (city_path s);
                              GET_request pricingClient (rates_path s) ])
         stays
         ltac:(eapply Forall_impl; [exact Ha|];
               intros [[s c] r] Hx tr0; now apply enrich_segment_answers)
         _)).
    unfold ret. simpl fst. now rewrite map_map.
  - intros k Hk. now apply assoc_set_field_ne.
  - apply assoc_set_field_eq.
  - clear. induction stays as [|[[s c] r] stays IH]; simpl; constructor; [|exact IH].
    unfold enrich. split; [|split; [|split; [|split]]].
    + intros k Hk. simpl in Hk.
      rewrite !assoc_set_field_ne by intuition congruence. reflexivity.
    + rewrite !assoc_set_field_ne by discriminate. apply assoc_set_field_eq.
    + rewrite !assoc_set_field_ne by discriminate. apply assoc_set_field_eq.
    + rewrite !assoc_set_field_ne by discriminate. apply assoc_set_field_eq.
    + apply assoc_set_field_eq.
Qed.

End ItineraryFacts.

(** ** Destinations with their seasons *)

Section DestinationFacts.
Context {E : Engine} {U : Upstream} {P : ProcessEnv}.

(** Unwrapping [response.data || response]. *)
Lemma carries_unwrap (response : Value) (l : list Value) :
  Spec.carries response l ->
  exists data, Obj.get response "data" = Normal data /\ JS.or data response = VArr l.
Proof.
  intros [l0|o l0 Hd].
  - exists VUndefined. now split.
  - exists (VArr l0). simpl. rewrite Hd. now split.
Qed.

Lemma group_season_step (acc : gmap string (list Value)) (season : list (string * Value)) :
  Obj.inherited (Spec.season_key season) = false ->
  group_season acc (VObj season)
  = Normal (<[Spec.season_key season :=
                default [] (acc !! Spec.season_key season) ++ [VObj season]]> acc).
Proof.
  intros Hk. unfold group_season. simpl.
  fold (Spec.field "city_id" season). fold (Spec.season_key season).
  destruct (acc !! Spec.season_key season); [reflexivity|].
  now rewrite Hk.
Qed.






End DestinationFacts.

(** ** Creating a composite itinerary *)

Section CreateFacts.
Context {E : Engine} {U : Upstream} {P : ProcessEnv}.

(** Tagging each validation with its index does not change what is
    validated, nor the requests. *)
Lemma Promise_all_indexed (g : nat -> nat) (segments : list Value) tr :
  Promise_all
    (imap (fun index segment =>
             bind (validateSegment segment) (fun result => ret (g index, result)))
          segments) tr
  = match Promise_all (List.map validateSegment segments) tr with
    | (Normal results, tr') => (Normal (imap (fun i r => (g i, r)) results), tr')
    | (Throw e, tr') => (Throw e, tr')
    end.
Proof.
  revert g tr. induction segments as [|segment segments IH]; intros g tr; [reflexivity|].
  simpl. unfold bind at 1.
  destruct (validateSegment segment tr) as [[r|e] tr1]; simpl.
  - rewrite (IH (g ∘ S)).
    now destruct (Promise_all (List.map validateSegment segments) tr1) as [[rs|e] tr2].
  - rewrite (IH (g ∘ S)).
    now destruct (Promise_all (List.map validateSegment segments) tr1) as [[rs|e2] tr2].
Qed.

Lemma failures_indexed (n : nat) (results : list SegmentValidation) :
  List.map detail
    (List.filter (fun r => negb (seg_valid (snd r)))
                 (imap (fun i r => (n + i, r)%nat) results))
  = Spec.failures n results.
Proof.
  revert n. induction results as [|r results IH]; intros n; [reflexivity|].
  assert (Hshift :
    imap ((fun (i : nat) (r0 : SegmentValidation) => ((n + i)%nat, r0)) ∘ S) results
    = imap (fun i r0 => ((S n + i)%nat, r0)) results)
    by (apply imap_ext; intros; simpl; f_equal; lia).
  simpl. rewrite Hshift, <- (IH (S n)).
  destruct (seg_valid r); simpl; [reflexivity|].
  unfold detail at 1. simpl. now rewrite Nat.add_0_r.
Qed.

Lemma failures_nonempty (n : nat) (results : list SegmentValidation) :
  Exists (fun r => seg_valid r = false) results -> Spec.failures n results <> [].
Proof.
  intros H. revert n. induction H as [r results Hr|r results _ IH]; intros n; simpl.
  - now rewrite Hr.
  - destruct (seg_valid r); [apply IH | discriminate].
Qed.

(** C1. When the request carries an itinerary and a non-empty array of
    segments, the validation of every segment completes, and at least
    one result is invalid, the reply is the client error 400 whose
    [details] list, in the order of the segments, gives each invalid
    segment's index and its whole error list; only reads were issued, so
    no itinerary and no segment was created. *)
Theorem post_itineraries_rejects (req_body itinerary : Value)
    (segments : list Value) (results : list SegmentValidation) tr tr' :
  Obj.get req_body "itinerary" = Normal itinerary ->
  JS.truthy itinerary = true ->
  Obj.get req_body "segments" = Normal (VArr segments) ->
  segments <> [] ->
  Promise_all (List.map validateSegment segments) tr = (Normal results, tr') ->
  Exists (fun r => seg_valid r = false) results ->
  post_itineraries req_body tr
  = ({| code := 400;
        json := VObj [ ("error", VStr "Segment validation failed");
                       ("details", VArr (Spec.failures 0 results)) ] |},
     tr')
  /\ exists calls, tr' = tr ++ calls /\ Forall is_read calls.
Proof.
  intros Hi Ti Hs Hne Hv Hinv. split.
  - unfold post_itineraries, route.
    rewrite (bind_sync _ _ _ _ Hi), (bind_sync _ _ _ _ Hs), Ti.
    change (negb true) with false. cbv iota.
    assert (Hna : nonempty_array (VArr segments) = Some segments)
      by (destruct segments; [contradiction | reflexivity]).
    rewrite Hna. unfold validate_indexed.
    unfold bind at 1. unfold bind at 1.
    rewrite (Promise_all_indexed (fun i => i) segments tr), Hv.
    pose proof (failures_indexed 0 results) as Hf. simpl in Hf.
    pose proof (failures_nonempty 0 results Hinv) as Hn.
    rewrite <- Hf in Hn.
    destruct (List.filter _ _) as [|d ds] eqn:Ef; [contradiction|].
    simpl length. simpl Nat.ltb. cbv iota. unfold ret.
    now rewrite <- Hf.
  - apply (reads_only_Promise_all (List.map validateSegment segments)) in Hv;
      [exact Hv|].
    clear. induction segments as [|segment segments IH]; simpl; constructor;
      [apply validateSegment_reads_only | exact IH].
Qed.

End CreateFacts.

(** ** The theorems at the worked examples *)

Lemma validateSegment_date_order_witness :
  exists r tr',
    @validateSegment Scenario.engine Scenario.upstream Scenario.env
      (VObj Scenario.backwards_segment) [] = (Normal r, tr')
    /\ In (VStr "end_date must be after start_date") (seg_errors r)
    /\ seg_valid r = false.
Proof.
  eexists. eexists. split; [vm_compute; reflexivity|].
  eapply (@validateSegment_date_order Scenario.engine Scenario.upstream Scenario.env
            (VObj Scenario.backwards_segment)
            (VStr "2024-01-04") (VStr "2024-01-01") 1704326400000 1704067200000 []);
    [reflexivity | reflexivity | reflexivity | reflexivity
    | reflexivity | reflexivity | lia | vm_compute; reflexivity].
Defined.

(** A segment in an unknown city, without a lodging class, that ends
    before it starts: the three errors of three different checks, after
    the one read of the city; and the empty segment: the four missing-field
    errors and no read. *)
Lemma validateSegment_accumulates_witness :
  @validateSegment Scenario.engine Scenario.upstream Scenario.env
    (VObj [ ("city_id", VStr "atlantis");
            ("start_date", VStr "2024-01-04"); ("end_date", VStr "2024-01-01") ]) []
  = (Normal {| seg_valid := false;
               seg_errors := [ VStr "City with ID 'atlantis' does not exist";
                               VStr "Segment missing lodging_class";
                               VStr "end_date must be after start_date" ] |},
     [ {| req_method := GET; req_url := "http://localhost:3001/cities/atlantis";
          req_body := None |} ])
  /\ (exists (city_id lodging_class start_date end_date : Value)
             (city lodging : option RefValidation) (tr1 : Trace),
        Obj.get (VObj [ ("city_id", VStr "atlantis");
                        ("start_date", VStr "2024-01-04");
                        ("end_date", VStr "2024-01-01") ]) "city_id" = Normal city_id
        /\ Obj.get (VObj [ ("city_id", VStr "atlantis");
                           ("start_date", VStr "2024-01-04");
                           ("end_date", VStr "2024-01-01") ]) "lodging_class"
           = Normal lodging_class
        /\ Obj.get (VObj [ ("city_id", VStr "atlantis");
                           ("start_date", VStr "2024-01-04");
                           ("end_date", VStr "2024-01-01") ]) "start_date"
           = Normal start_date
        /\ Obj.get (VObj [ ("city_id", VStr "atlantis");
                           ("start_date", VStr "2024-01-04");
                           ("end_date", VStr "2024-01-01") ]) "end_date" = Normal end_date
        /\ checked (@validateCityExists Scenario.engine Scenario.upstream Scenario.env)
             city_id [] city tr1
        /\ checked (@validateLodgingClass Scenario.engine Scenario.upstream Scenario.env)
             lodging_class tr1 lodging
             [ {| req_method := GET; req_url := "http://localhost:3001/cities/atlantis";
                  req_body := None |} ]
        /\ [ VStr "City with ID 'atlantis' does not exist";
             VStr "Segment missing lodging_class";
             VStr "end_date must be after start_date" ]
           = @Spec.applicable_errors Scenario.engine start_date end_date city lodging
        /\ (false = true
            <-> [ VStr "City with ID 'atlantis' does not exist";
                  VStr "Segment missing lodging_class";
                  VStr "end_date must be after start_date" ] = []))
  /\ @validateSegment Scenario.engine Scenario.upstream Scenario.env (VObj []) []
     = (Normal {| seg_valid := false;
                  seg_errors := [ VStr "Segment missing city_id";
                                  VStr "Segment missing lodging_class";
                                  VStr "Segment missing start_date";
                                  VStr "Segment missing end_date" ] |},
        []).
Proof.
  split; [vm_compute; reflexivity|]. split.
  - apply (proj1 (@validateSegment_accumulates Scenario.engine Scenario.upstream
                    Scenario.env
                    (VObj [ ("city_id", VStr "atlantis");
                            ("start_date", VStr "2024-01-04");
                            ("end_date", VStr "2024-01-01") ]) [])
             {| seg_valid := false;
                seg_errors := [ VStr "City with ID 'atlantis' does not exist";
                                VStr "Segment missing lodging_class";
                                VStr "end_date must be after start_date" ] |}
             [ {| req_method := GET; req_url := "http://localhost:3001/cities/atlantis";
                  req_body := None |} ]).
    vm_compute. reflexivity.
  - apply (proj2 (@validateSegment_accumulates Scenario.engine Scenario.upstream
                    Scenario.env (VObj []) []));
      (exists VUndefined; split; reflexivity).
Defined.

Lemma validateLodgingClass_representation_witness :
  @validateLodgingClass Scenario.engine Scenario.upstream Scenario.env (VStr "standard") []
  = @validateLodgingClass Scenario.engine Scenario.upstream_objects Scenario.env
      (VStr "standard") []
  /\ (~ In (Some "standard"%string)
          (List.map Spec.class_name_of
             [VStr "standard"; VObj [("class_name", VStr "deluxe")]]) ->
      fst (@validateLodgingClass Scenario.engine Scenario.upstream Scenario.env
             (VStr "standard") [])
      = Normal {| ref_valid := false;
                  ref_error := Some "Lodging class 'standard' does not exist" |}).
Proof.
  apply (@validateLodgingClass_representation Scenario.engine Scenario.env
           Scenario.upstream Scenario.upstream_objects
           [VStr "standard"; VObj [("class_name", VStr "deluxe")]]
           [VObj [("class_name", VStr "standard")]; VStr "deluxe"]
           "standard" []).
  - exists 200%N, "OK"%string. split; [reflexivity | lia].
  - exists 200%N, "OK"%string. split; [reflexivity | lia].
  - repeat constructor.
  - repeat constructor.
  - reflexivity.
Defined.

Lemma get_quotes_no_segments_witness :
  @get_quotes Scenario.engine Scenario.upstream Scenario.env "it0" []
  = ({| code := 200;
        json := VObj [("total", VNum Number.zero); ("segments", VArr [])] |},
     [ {| req_method := GET;
          req_url := "http://localhost:3003/itineraries/it0/segments";
          req_body := None |} ]).
Proof.
  apply (@get_quotes_no_segments Scenario.engine Scenario.upstream Scenario.env "it0" []).
  exists 200%N, "OK"%string. split; [reflexivity | lia].
Defined.



Lemma get_itinerary_preserves_witness :
  exists (reply : list (string * Value)) (enriched : list (list (string * Value))),
    fst (@get_itinerary Scenario.engine Scenario.upstream Scenario.env "it3" [])
    = {| code := 200; json := VObj reply |}
    /\ (forall k, k <> "segments"%string ->
                  JS.assoc k reply = JS.assoc k Scenario.itinerary3)
    /\ JS.assoc "segments" reply = Some (VArr (List.map VObj enriched))
    /\ Forall2
         (fun '(s, c, r) e =>
            (forall k, ~ In k ["city_name"; "country_code"; "currency"; "rates"]%string ->
                       JS.assoc k e = JS.assoc k s)
            /\ JS.assoc "city_name" e = Some (Spec.field "name" c)
            /\ JS.assoc "country_code" e = Some (Spec.field "country_code" c)
            /\ JS.assoc "currency" e = Some (Spec.field "currency" c)
            /\ JS.assoc "rates" e = Some (JS.or r (VArr [])))
         [(Scenario.annotated_segment, Scenario.paris, VArr [VObj Scenario.paris_rate])]
         enriched.
Proof.
  apply (@get_itinerary_preserves Scenario.engine Scenario.upstream Scenario.env "it3"
           Scenario.itinerary3
           [(Scenario.annotated_segment, Scenario.paris, VArr [VObj Scenario.paris_rate])] []).
  - exists 200%N, "OK"%string. split; [reflexivity | lia].
  - exists 200%N, "OK"%string. split; [reflexivity | lia].
  - repeat constructor; exists 200%N, "OK"%string; (split; [reflexivity | lia]).
Defined.


(** A create request whose first segment is valid and whose second is
    empty: rejected with the second segment's index and four errors, after
    two reads and no write. *)
Lemma post_itineraries_rejects_witness :
  @post_itineraries Scenario.engine Scenario.upstream Scenario.env Scenario.create_request []
  = ({| code := 400;
        json := VObj
          [ ("error", VStr "Segment validation failed");
            ("details",
             VArr [ VObj [ ("segment_index", VNum (Number.of_Z 1));
                           ("errors",
                            VArr [ VStr "Segment missing city_id";
                                   VStr "Segment missing lodging_class";
                                   VStr "Segment missing start_date";
                                   VStr "Segment missing end_date" ]) ] ]) ] |},
     [ {| req_method := GET; req_url := "http://localhost:3001/cities/paris";
          req_body := None |};
       {| req_method := GET; req_url := "http://localhost:3002/lodging-classes";
          req_body := None |} ])
  /\ exists calls,
       [ {| req_method := GET; req_url := "http://localhost:3001/cities/paris";
            req_body := None |};
         {| req_method := GET; req_url := "http://localhost:3002/lodging-classes";
            req_body := None |} ] = [] ++ calls
       /\ Forall is_read calls.
Proof.
  apply (@post_itineraries_rejects Scenario.engine Scenario.upstream Scenario.env
           Scenario.create_request
           (VObj [("title", VStr "Spring")])
           [VObj Scenario.paris_segment; VObj []]
           [ {| seg_valid := true; seg_errors := [] |};
             {| seg_valid := false;
                seg_errors := [ VStr "Segment missing city_id";
                                VStr "Segment missing lodging_class";
                                VStr "Segment missing start_date";
                                VStr "Segment missing end_date" ] |} ]
           []).
  - reflexivity.
  - reflexivity.
  - reflexivity.
  - discriminate.
  - reflexivity.
  - right. left. reflexivity.
Defined.

(** * Further properties of the client and of the routes *)

(** ** What a computation issues *)

Section IssuesOnly.
Context {A B : Type} (Q : Request -> Prop).

Lemma issues_only_sync (c : Completion A) : issues_only Q (sync c).
Proof.
  intros tr r tr' [= _ <-]. exists []. split; [now rewrite app_nil_r | constructor].
Qed.

Lemma issues_only_ret (a : A) : issues_only Q (ret a).
Proof. apply (issues_only_sync (Normal a)). Qed.

Lemma issues_only_throw (e : JSError) : issues_only Q (@throw A e).
Proof. apply (issues_only_sync (Throw e)). Qed.

Lemma issues_only_bind (p : Async A) (k : A -> Async B) :
  issues_only Q p -> (forall a, issues_only Q (k a)) -> issues_only Q (bind p k).
Proof.
  intros Hp Hk tr r tr'. unfold bind.
  destruct (p tr) as [[a|e] tr1] eqn:Ep; intros H;
    destruct (Hp _ _ _ Ep) as (c1 & -> & F1).
  - destruct (Hk a _ _ _ H) as (c2 & -> & F2).
    exists (c1 ++ c2). split; [now rewrite app_assoc | now apply Forall_app].
  - injection H as <- <-. now exists c1.
Qed.

Lemma issues_only_try_catch (p : Async A) (h : JSError -> Async A) :
  issues_only Q p -> (forall e, issues_only Q (h e)) -> issues_only Q (try_catch p h).
Proof.
  intros Hp Hh tr r tr'. unfold try_catch.
  destruct (p tr) as [[a|e] tr1] eqn:Ep; intros H;
    destruct (Hp _ _ _ Ep) as (c1 & -> & F1).
  - injection H as <- <-. now exists c1.
  - destruct (Hh e _ _ _ H) as (c2 & -> & F2).
    exists (c1 ++ c2). split; [now rewrite app_assoc | now apply Forall_app].
Qed.

Lemma issues_only_Promise_all2 (p : Async A) (q : Async B) :
  issues_only Q p -> issues_only Q q -> issues_only Q (Promise_all2 p q).
Proof.
  intros Hp Hq tr r tr'. unfold Promise_all2.
  destruct (p tr) as [r1 tr1] eqn:E1. destruct (q tr1) as [r2 tr2] eqn:E2.
  intros [= _ <-].
  destruct (Hp _ _ _ E1) as (c1 & -> & F1).
  destruct (Hq _ _ _ E2) as (c2 & -> & F2).
  exists (c1 ++ c2). split; [now rewrite app_assoc | now apply Forall_app].
Qed.

End IssuesOnly.

Lemma issues_only_Promise_all {A} (Q : Request -> Prop) (ps : list (Async A)) :
  Forall (issues_only Q) ps -> issues_only Q (Promise_all ps).
Proof.
  induction 1 as [|p ps Hp _ IH]; [apply issues_only_ret|].
  intros tr r tr'. simpl.
  destruct (p tr) as [r1 tr1] eqn:E1.
  destruct (Promise_all ps tr1) as [rs tr2] eqn:E2.
  intros [= _ <-].
  destruct (Hp _ _ _ E1) as (c1 & -> & F1).
  destruct (IH _ _ _ E2) as (c2 & -> & F2).
  exists (c1 ++ c2). split; [now rewrite app_assoc | now apply Forall_app].
Qed.

Lemma issues_only_Promise_all_map {A B} (Q : Request -> Prop) (f : B -> Async A) (l : list B) :
  (forall x, issues_only Q (f x)) -> issues_only Q (Promise_all (List.map f l)).
Proof.
  intros Hf. apply issues_only_Promise_all.
  induction l; simpl; constructor; auto.
Qed.


Lemma issues_only_imap {A B} (Q : Request -> Prop) (f : nat -> B -> Async A) (l : list B) :
  (forall i x, issues_only Q (f i x)) -> issues_only Q (Promise_all (imap f l)).
Proof.
  intros Hf. apply issues_only_Promise_all.
  revert f Hf. induction l as [|x l IH]; intros f Hf; simpl; constructor; [apply Hf|].
  apply IH. intros i y. apply Hf.
Qed.

(** [Promise.all] over members that each issue a known list of requests,
    whatever their outcome: all the requests are issued, in index order. *)
Lemma Promise_all_trace {A B} (f : A -> Async B) (calls : A -> Trace) (l : list A) :
  (forall x tr, snd (f x tr) = tr ++ calls x) ->
  forall tr, snd (Promise_all (List.map f l) tr) = tr ++ concat (List.map calls l).
Proof.
  intros Hf. induction l as [|x l IH]; intros tr; simpl.
  - now rewrite app_nil_r.
  - specialize (Hf x tr). destruct (f x tr) as [r1 tr1]. simpl in Hf. subst tr1.
    specialize (IH (tr ++ calls x)).
    destruct (Promise_all (List.map f l) (tr ++ calls x)) as [rs tr2].
    simpl in *. subst tr2. now rewrite app_assoc.
Qed.

(** If a member rejects, so does [Promise.all]. *)
Lemma Promise_all_rejects {A B} (f : A -> Async B) (l : list A) :
  forall tr,
  Exists (fun x => forall tr0, exists e, fst (f x tr0) = Throw e) l ->
  exists e, fst (Promise_all (List.map f l) tr) = Throw e.
Proof.
  intros tr H. revert tr. induction H as [x l Hx|x l _ IH]; intros tr; simpl.
  - destruct (Hx tr) as (e & He). destruct (f x tr) as [r1 tr1]. simpl in He. subst r1.
    destruct (Promise_all (List.map f l) tr1) as [rs tr2]. now exists e.
  - destruct (f x tr) as [r1 tr1]. destruct (IH tr1) as (e & He).
    destruct (Promise_all (List.map f l) tr1) as [rs tr2]. simpl in He. subst rs.
    destruct r1 as [a|e1]; eauto.
Qed.

Lemma handler_issues_only_route {E : Engine} (Q : Request -> Prop)
    (fallback : string) (p : Async Reply) :
  issues_only Q p -> handler_issues_only Q (route fallback p).
Proof.
  intros Hp tr. unfold route.
  destruct (p tr) as [[reply|e] tr'] eqn:Ep; destruct (Hp _ _ _ Ep) as (calls & -> & F);
    now exists calls.
Qed.

Lemma issues_only_weaken {A} (Q Q' : Request -> Prop) (p : Async A) :
  (forall r, Q r -> Q' r) -> issues_only Q p -> issues_only Q' p.
Proof.
  intros HQ Hp tr r tr' H. destruct (Hp _ _ _ H) as (calls & -> & F).
  exists calls. split; [reflexivity|]. eapply Forall_impl; eauto.
Qed.

Lemma handler_issues_only_weaken (Q Q' : Request -> Prop) (h : Handler) :
  (forall r, Q r -> Q' r) -> handler_issues_only Q h -> handler_issues_only Q' h.
Proof.
  intros HQ Hh tr. destruct (Hh tr) as (calls & -> & F).
  exists calls. split; [reflexivity|]. eapply Forall_impl; eauto.
Qed.

(** ** The HTTP client: one request per call, and when it resolves *)

Section ClientMore.
Context {U : Upstream}.

Lemma HttpClient_get_trace client path tr :
  snd (HttpClient_get client path tr) = tr ++ [GET_request client path].
Proof.
  unfold HttpClient_get, bind, js_fetch. fold (GET_request client path).
  destruct (fetch _) as [m|response]; [reflexivity|].
  destruct (negb (response_ok response)); [reflexivity|].
  unfold response_json. now destruct (body response).
Qed.

Lemma HttpClient_post_trace client path data tr :
  snd (HttpClient_post client path data tr) = tr ++ [POST_request client path data].
Proof.
  unfold HttpClient_post, bind, js_fetch. fold (POST_request client path data).
  destruct (fetch _) as [m|response]; [reflexivity|].
  destruct (negb (response_ok response)); [reflexivity|].
  unfold response_json. now destruct (body response).
Qed.

Lemma response_ok_iff (response : FetchResponse) :
  response_ok response = true <-> (200 <= status response <= 299)%N.
Proof.
  unfold response_ok. rewrite andb_true_iff, !N.leb_le. reflexivity.
Qed.

Lemma HttpClient_get_resolves client path v tr :
  fst (HttpClient_get client path tr) = Normal v <-> serves client path v.
Proof.
  split.
  - unfold HttpClient_get, bind, js_fetch, serves.
    destruct (fetch _) as [m|[st txt b]] eqn:Ef; [discriminate|].
    destruct (response_ok _) eqn:Eok; simpl; [|discriminate].
    apply response_ok_iff in Eok. simpl in Eok.
    unfold response_json. simpl. destruct b as [v0|m]; simpl; [|discriminate].
    intros [= ->]. now exists st, txt.
  - intros H. now rewrite (HttpClient_get_serves _ _ _ tr H).
Qed.

Lemma HttpClient_post_creates client path data v tr :
  creates client path data v ->
  HttpClient_post client path data tr
  = (Normal v, tr ++ [POST_request client path data]).
Proof.
  intros (st & txt & Hf & Hst).
  unfold HttpClient_post, bind, js_fetch. fold (POST_request client path data).
  rewrite Hf.
  assert (Hok : response_ok {| status := st; statusText := txt; body := JsonBody v |} = true)
    by now apply response_ok_iff.
  now rewrite Hok.
Qed.

Lemma HttpClient_post_resolves client path data v tr :
  fst (HttpClient_post client path data tr) = Normal v <-> creates client path data v.
Proof.
  split.
  - unfold HttpClient_post, bind, js_fetch, creates. fold (POST_request client path data).
    destruct (fetch _) as [m|[st txt b]] eqn:Ef; [discriminate|].
    destruct (response_ok _) eqn:Eok; simpl; [|discriminate].
    apply response_ok_iff in Eok. simpl in Eok.
    unfold response_json. simpl. destruct b as [v0|m]; simpl; [|discriminate].
    intros [= ->]. now exists st, txt.
  - intros H. now rewrite (HttpClient_post_creates _ _ _ _ tr H).
Qed.

Lemma response_not_ok (st : N) (txt : string) (b : ResponseBody) :
  (st < 200 \/ 299 < st)%N ->
  response_ok {| status := st; statusText := txt; body := b |} = false.
Proof.
  intros H. destruct (response_ok _) eqn:E; [|reflexivity].
  apply response_ok_iff in E. simpl in E. lia.
Qed.

Lemma HttpClient_get_refused client path st txt tr :
  refused (GET_request client path) st txt ->
  HttpClient_get client path tr
  = (Throw (Error ("HTTP " +:+ pretty st +:+ ": " +:+ txt +:+ " from "
                   +:+ baseUrl client +:+ path)),
     tr ++ [GET_request client path]).
Proof.
  intros (b & Hf & Hst). unfold HttpClient_get, bind, js_fetch.
  fold (GET_request client path). rewrite Hf, (response_not_ok _ _ _ Hst). reflexivity.
Qed.

Lemma HttpClient_post_refused client path data st txt tr :
  refused (POST_request client path data) st txt ->
  HttpClient_post client path data tr
  = (Throw (Error ("HTTP " +:+ pretty st +:+ ": " +:+ txt +:+ " from "
                   +:+ baseUrl client +:+ path)),
     tr ++ [POST_request client path data]).
Proof.
  intros (b & Hf & Hst). unfold HttpClient_post, bind, js_fetch.
  fold (POST_request client path data). rewrite Hf, (response_not_ok _ _ _ Hst). reflexivity.
Qed.

Lemma HttpClient_get_issues (Q : Request -> Prop) client path :
  Q (GET_request client path) -> issues_only Q (HttpClient_get client path).
Proof.
  intros HQ tr r tr' H. exists [GET_request client path]. split.
  - rewrite <- (HttpClient_get_trace client path tr). now rewrite H.
  - now constructor.
Qed.

Lemma HttpClient_post_issues (Q : Request -> Prop) client path data :
  Q (POST_request client path data) -> issues_only Q (HttpClient_post client path data).
Proof.
  intros HQ tr r tr' H. exists [POST_request client path data]. split.
  - rewrite <- (HttpClient_post_trace client path data tr). now rewrite H.
  - now constructor.
Qed.

End ClientMore.

Section ClientTheorems.
Context {U : Upstream}.

(** X1. One call, one request. Whatever the response, [get] issues exactly
    one GET of the base URL followed by the path, and [post] exactly one
    POST of it carrying the body: nothing is retried and nothing else is
    contacted. *)
Theorem HttpClient_one_request (client : HttpClient) (path : string) (data : Value) tr :
  snd (HttpClient_get client path tr) = tr ++ [GET_request client path]
  /\ snd (HttpClient_post client path data tr) = tr ++ [POST_request client path data].
Proof. split; [apply HttpClient_get_trace | apply HttpClient_post_trace]. Qed.

(** X2. A call resolves with a value exactly when the response has a status
    from 200 to 299 and a body that parses as JSON, and the value is that
    body. *)
Theorem HttpClient_resolves_iff (client : HttpClient) (path : string)
    (data v : Value) tr :
  (fst (HttpClient_get client path tr) = Normal v <-> serves client path v)
  /\ (fst (HttpClient_post client path data tr) = Normal v
      <-> creates client path data v).
Proof. split; [apply HttpClient_get_resolves | apply HttpClient_post_resolves]. Qed.

(** X3. A response with a status outside 200..299 makes the call throw an
    Error whose message is "HTTP <status>: <statusText> from <url>"; the
    body of the response, JSON or not, is dropped. *)
Theorem HttpClient_failure_message (client : HttpClient) (path : string)
    (data : Value) (st : N) (txt : string) tr :
  (refused (GET_request client path) st txt ->
   fst (HttpClient_get client path tr)
   = Throw (Error ("HTTP " +:+ pretty st +:+ ": " +:+ txt +:+ " from "
                   +:+ baseUrl client +:+ path)))
  /\ (refused (POST_request client path data) st txt ->
      fst (HttpClient_post client path data tr)
      = Throw (Error ("HTTP " +:+ pretty st +:+ ": " +:+ txt +:+ " from "
                      +:+ baseUrl client +:+ path))).
Proof.
  split; intros Hr.
  - now rewrite (HttpClient_get_refused _ _ _ _ tr Hr).
  - now rewrite (HttpClient_post_refused _ _ _ _ _ tr Hr).
Qed.

End ClientTheorems.

(** ** Substrings *)

Lemma prefix_app (sub a b : string) :
  String.prefix sub a = true -> String.prefix sub (a +:+ b) = true.
Proof.
  revert a. induction sub as [|c sub IH]; intros a; [intros _; now destruct (a +:+ b)|].
  destruct a as [|c' a]; simpl; [discriminate|].
  destruct (ascii_dec c c'); [apply IH | discriminate].
Qed.

Lemma includes_app_l (sub a b : string) :
  Str.includes sub a = true -> Str.includes sub (a +:+ b) = true.
Proof.
  induction a as [|c a IH].
  - simpl. rewrite orb_false_r. intros H.
    destruct sub; [now destruct b | discriminate].
  - cbn [Str.includes]. change (String c a +:+ b) with (String c (a +:+ b)).
    cbn [Str.includes]. rewrite !orb_true_iff. intros [H|H].
    + left. now apply (prefix_app _ (String c a) b).
    + right. now apply IH.
Qed.

Lemma includes_app_r (sub a b : string) :
  Str.includes sub b = true -> Str.includes sub (a +:+ b) = true.
Proof.
  intros H. induction a as [|c a IH]; [exact H|].
  change (String c a +:+ b) with (String c (a +:+ b)).
  cbn [Str.includes]. rewrite IH. apply orb_true_r.
Qed.

(** ** The reference checks, case by case *)

Section ValidationMore.
Context {E : Engine} {U : Upstream} {P : ProcessEnv}.

Lemma validateCityExists_trace cityId tr :
  snd (validateCityExists cityId tr)
  = tr ++ [GET_request destinationsClient ("/cities/" +:+ JS.ToString cityId)].
Proof.
  unfold validateCityExists, try_catch, bind.
  pose proof (HttpClient_get_trace destinationsClient ("/cities/" +:+ JS.ToString cityId) tr) as Ht.
  destruct (HttpClient_get _ _ tr) as [[v|e] tr1]; simpl in Ht; subst tr1; [reflexivity|].
  now destruct (Str.includes "404" (err_message e)).
Qed.


Lemma validateCityExists_valid_inv cityId tr r tr' :
  validateCityExists cityId tr = (Normal r, tr') ->
  ref_valid r = true ->
  exists v, serves destinationsClient ("/cities/" +:+ JS.ToString cityId) v.
Proof.
  unfold validateCityExists, try_catch, bind. intros H Hv.
  destruct (HttpClient_get _ _ tr) as [[v|e] tr1] eqn:Eg.
  - exists v. apply (HttpClient_get_resolves _ _ _ tr). now rewrite Eg.
  - destruct (Str.includes "404" (err_message e)); [|discriminate].
    injection H as <- _. discriminate.
Qed.

Lemma validateLodgingClass_trace lodgingClass tr :
  snd (validateLodgingClass lodgingClass tr)
  = tr ++ [GET_request pricingClient "/lodging-classes"].
Proof.
  unfold validateLodgingClass, try_catch, bind.
  pose proof (HttpClient_get_trace pricingClient "/lodging-classes" tr) as Ht.
  destruct (HttpClient_get _ _ tr) as [[v|e] tr1]; simpl in Ht; subst tr1; [|reflexivity].
  unfold sync. destruct (Obj.some v _) as [b|e]; [|reflexivity].
  now destruct b.
Qed.

Lemma validateLodgingClass_found lodgingClass classes tr :
  serves pricingClient "/lodging-classes" classes ->
  Obj.some classes (is_class lodgingClass) = Normal true ->
  validateLodgingClass lodgingClass tr
  = (Normal {| ref_valid := true; ref_error := None |},
     tr ++ [GET_request pricingClient "/lodging-classes"]).
Proof.
  intros Hs Hc. unfold validateLodgingClass, try_catch.
  rewrite (bind_normal _ _ _ _ _ (HttpClient_get_serves _ _ _ tr Hs)).
  now rewrite (bind_sync _ _ _ _ Hc).
Qed.

Lemma validateLodgingClass_valid_inv lodgingClass tr r tr' :
  validateLodgingClass lodgingClass tr = (Normal r, tr') ->
  ref_valid r = true ->
  exists classes,
    serves pricingClient "/lodging-classes" classes
    /\ Obj.some classes (is_class lodgingClass) = Normal true.
Proof.
  unfold validateLodgingClass, try_catch, bind. intros H Hv.
  destruct (HttpClient_get _ _ tr) as [[v|e] tr1] eqn:Eg; [|discriminate].
  exists v. split; [apply (HttpClient_get_resolves _ _ _ tr); now rewrite Eg|].
  unfold sync in H. destruct (Obj.some v _) as [[|]|e]; try discriminate; [reflexivity|].
  injection H as <- _. discriminate.
Qed.

End ValidationMore.

Section SegmentMore.
Context {E : Engine} {U : Upstream} {P : ProcessEnv}.

(** The outcome of the city step of [validateSegment]. *)
Lemma city_step_inv (city_id : Value) (errors0 : list Value) tr errors tr' :
  (if negb (JS.truthy city_id) then
     ret (errors0 ++ [VStr "Segment missing city_id"])
   else
     let* cityValidation := validateCityExists city_id in
     if negb (ref_valid cityValidation)
     then ret (errors0 ++ [non_null (ref_error cityValidation)])
     else ret errors0) tr = (Normal errors, tr') ->
  (JS.truthy city_id = false /\ tr' = tr
   /\ errors = errors0 ++ [VStr "Segment missing city_id"])
  \/ (JS.truthy city_id = true
      /\ tr' = tr ++ [GET_request destinationsClient ("/cities/" +:+ JS.ToString city_id)]
      /\ ((errors = errors0
           /\ exists v, serves destinationsClient ("/cities/" +:+ JS.ToString city_id) v)
          \/ errors = errors0 ++ [VStr ("City with ID '" +:+ JS.ToString city_id
                                        +:+ "' does not exist")])).
Proof.
  destruct (JS.truthy city_id) eqn:Ht; simpl.
  - intros H. right. split; [reflexivity|]. invert_bind H.
    pose proof (validateCityExists_trace city_id tr) as Htr. rewrite Hp in Htr. simpl in Htr.
    subst tr0.
    destruct (ref_valid a) eqn:Hv; simpl in H; injection H as <- <-.
    + split; [reflexivity|]. left. split; [reflexivity|].
      eapply validateCityExists_valid_inv; eauto.
    + split; [reflexivity|]. right.
      unfold validateCityExists, try_catch, bind in Hp.
      destruct (HttpClient_get _ _ tr) as [[v|e] tr1].
      * injection Hp as <- _. discriminate.
      * destruct (Str.includes "404" (err_message e)); [|discriminate].
        now injection Hp as <- _.
  - intros [= <- <-]. now left.
Qed.

(** The outcome of the lodging-class step of [validateSegment]. *)
Lemma lodging_step_inv (lodging_class : Value) (errors0 : list Value) tr errors tr' :
  (if negb (JS.truthy lodging_class) then
     ret (errors0 ++ [VStr "Segment missing lodging_class"])
   else
     let* lodgingValidation := validateLodgingClass lodging_class in
     if negb (ref_valid lodgingValidation)
     then ret (errors0 ++ [non_null (ref_error lodgingValidation)])
     else ret errors0) tr = (Normal errors, tr') ->
  (JS.truthy lodging_class = false /\ tr' = tr
   /\ errors = errors0 ++ [VStr "Segment missing lodging_class"])
  \/ (JS.truthy lodging_class = true
      /\ tr' = tr ++ [GET_request pricingClient "/lodging-classes"]
      /\ ((errors = errors0
           /\ exists classes,
                serves pricingClient "/lodging-classes" classes
                /\ Obj.some classes (is_class lodging_class) = Normal true)
          \/ errors = errors0 ++ [VStr ("Lodging class '" +:+ JS.ToString lodging_class
                                        +:+ "' does not exist")])).
Proof.
  destruct (JS.truthy lodging_class) eqn:Ht; simpl.
  - intros H. right. split; [reflexivity|]. invert_bind H.
    pose proof (validateLodgingClass_trace lodging_class tr) as Htr.
    rewrite Hp in Htr. simpl in Htr. subst tr0.
    destruct (ref_valid a) eqn:Hv; simpl in H; injection H as <- <-.
    + split; [reflexivity|]. left. split; [reflexivity|].
      eapply validateLodgingClass_valid_inv; eauto.
    + split; [reflexivity|]. right.
      unfold validateLodgingClass, try_catch, bind in Hp.
      destruct (HttpClient_get _ _ tr) as [[v|e] tr1]; [|discriminate].
      unfold sync in Hp. destruct (Obj.some v _) as [[|]|e]; try discriminate.
      * injection Hp as <- _. discriminate.
      * now injection Hp as <- _.
  - intros [= <- <-]. now left.
Qed.

(** [validateSegment], step by step, for a run that returns. *)
Lemma validateSegment_inv (segment : Value) tr r tr' :
  validateSegment segment tr = (Normal r, tr') ->
  exists city_id lodging_class start_date end_date errors1 errors2 tr1,
    Obj.get segment "city_id" = Normal city_id
    /\ Obj.get segment "lodging_class" = Normal lodging_class
    /\ Obj.get segment "start_date" = Normal start_date
    /\ Obj.get segment "end_date" = Normal end_date
    /\ ((JS.truthy city_id = false /\ tr1 = tr
         /\ errors1 = [VStr "Segment missing city_id"])
        \/ (JS.truthy city_id = true
            /\ tr1 = tr ++ [GET_request destinationsClient
                              ("/cities/" +:+ JS.ToString city_id)]
            /\ ((errors1 = []
                 /\ exists v, serves destinationsClient
                                ("/cities/" +:+ JS.ToString city_id) v)
                \/ errors1 = [VStr ("City with ID '" +:+ JS.ToString city_id
                                    +:+ "' does not exist")])))
    /\ ((JS.truthy lodging_class = false /\ tr' = tr1
         /\ errors2 = errors1 ++ [VStr "Segment missing lodging_class"])
        \/ (JS.truthy lodging_class = true
            /\ tr' = tr1 ++ [GET_request pricingClient "/lodging-classes"]
            /\ ((errors2 = errors1
                 /\ exists classes,
                      serves pricingClient "/lodging-classes" classes
                      /\ Obj.some classes (is_class lodging_class) = Normal true)
                \/ errors2 = errors1 ++ [VStr ("Lodging class '"
                                               +:+ JS.ToString lodging_class
                                               +:+ "' does not exist")])))
    /\ seg_errors r
       = ((errors2
           ++ (if JS.truthy start_date then [] else [VStr "Segment missing start_date"]))
          ++ (if JS.truthy end_date then [] else [VStr "Segment missing end_date"]))
         ++ (if JS.truthy start_date && JS.truthy end_date
                && JS.Date_le (JS.Date_new end_date) (JS.Date_new start_date)
             then [VStr "end_date must be after start_date"] else [])
    /\ seg_valid r = Nat.eqb (length (seg_errors r)) 0.
Proof.
  intros H. unfold validateSegment in H.
  invert_bind H. injection Hp as Hc <-.
  invert_bind H. rename Hp into Hcity.
  invert_bind H. injection Hp as Hl <-.
  invert_bind H. rename Hp into Hlodging.
  invert_bind H. injection Hp as Hs <-.
  invert_bind H. injection Hp as He <-.
  apply city_step_inv in Hcity. apply lodging_step_inv in Hlodging.
  injection H as <- <-.
  exists a, a1, a3, a4, a0, a2, tr0.
  repeat (split; [assumption|]).
  simpl. split; [|reflexivity].
  destruct (JS.truthy a3), (JS.truthy a4); simpl;
    try destruct (JS.Date_le _ _); simpl; now rewrite ?app_nil_r.
Qed.

End SegmentMore.

Section SegmentTheorems.
Context {E : Engine} {U : Upstream} {P : ProcessEnv}.

Lemma Date_le_true (a b : option Z) :
  JS.Date_le a b = true <-> exists x y, a = Some x /\ b = Some y /\ x <= y.
Proof.
  destruct a as [x|], b as [y|]; simpl; split; try discriminate;
    try (intros (x0 & y0 & ? & ? & _); discriminate).
  - intros H. exists x, y. repeat split. now apply Z.leb_le.
  - intros (x0 & y0 & [= <-] & [= <-] & H). now apply Z.leb_le.
Qed.


(** X5. A segment is reported valid only if all four fields are present,
    the city read and the class-list read were both answered with a
    success status, the class was found in the list, and the date check
    did not fire; exactly those two reads were issued. *)
Theorem validateSegment_valid_only_if (segment : Value) tr r tr' :
  validateSegment segment tr = (Normal r, tr') ->
  seg_valid r = true ->
  exists city_id lodging_class start_date end_date,
    Obj.get segment "city_id" = Normal city_id /\ JS.truthy city_id = true
    /\ Obj.get segment "lodging_class" = Normal lodging_class
    /\ JS.truthy lodging_class = true
    /\ Obj.get segment "start_date" = Normal start_date /\ JS.truthy start_date = true
    /\ Obj.get segment "end_date" = Normal end_date /\ JS.truthy end_date = true
    /\ (exists city,
          serves destinationsClient ("/cities/" +:+ JS.ToString city_id) city)
    /\ (exists classes,
          serves pricingClient "/lodging-classes" classes
          /\ Obj.some classes (is_class lodging_class) = Normal true)
    /\ JS.Date_le (JS.Date_new end_date) (JS.Date_new start_date) = false
    /\ seg_errors r = []
    /\ tr' = tr ++ [ GET_request destinationsClient ("/cities/" +:+ JS.ToString city_id);
                     GET_request pricingClient "/lodging-classes" ].
Proof.
  intros H Hv.
  destruct (validateSegment_inv _ _ _ _ H)
    as (c & l & s & e & e1 & e2 & tr1 & Hc & Hl & Hs & He & Cs & Ls & Herr & Hvalid).
  rewrite Hv in Hvalid. symmetry in Hvalid. apply Nat.eqb_eq in Hvalid.
  apply length_zero_iff_nil in Hvalid. rewrite Hvalid in Herr. symmetry in Herr.
  apply app_eq_nil in Herr as [Herr Hd].
  apply app_eq_nil in Herr as [Herr Hme].
  apply app_eq_nil in Herr as [He2 Hms].
  destruct (JS.truthy s) eqn:Ts; [|discriminate].
  destruct (JS.truthy e) eqn:Te; [|discriminate].
  simpl in Hd.
  destruct (JS.Date_le _ _) eqn:Ed; [discriminate|].
  assert (He1 : e1 = [] /\ JS.truthy l = true
                /\ tr' = tr1 ++ [GET_request pricingClient "/lodging-classes"]
                /\ exists classes,
                     serves pricingClient "/lodging-classes" classes
                     /\ Obj.some classes (is_class l) = Normal true).
  { destruct Ls as [(_ & _ & Hx)|(Tl & Htr & [(Hx & Sl)|Hx])];
      rewrite He2 in Hx;
      try (symmetry in Hx; apply app_eq_nil in Hx as [_ Hx]; discriminate).
    now repeat split. }
  destruct He1 as (He1 & Tl & Htr' & Sl).
  assert (Hc1 : JS.truthy c = true
                /\ tr1 = tr ++ [GET_request destinationsClient
                                  ("/cities/" +:+ JS.ToString c)]
                /\ exists v, serves destinationsClient
                               ("/cities/" +:+ JS.ToString c) v).
  { destruct Cs as [(_ & _ & Hx)|(Tc & Htr & [(_ & Sc)|Hx])];
      try (rewrite He1 in Hx; discriminate).
    now repeat split. }
  destruct Hc1 as (Tc & Htr1 & Sc). subst tr1 tr'.
  exists c, l, s, e. repeat (split; [assumption|]).
  now rewrite <- app_assoc.
Qed.

(** X6. The date-order error is reported only for two present dates that
    denote instants with the end on or before the start: a date that does
    not denote an instant never triggers it. *)
Theorem validateSegment_date_error_only_if (segment : Value) tr r tr' :
  validateSegment segment tr = (Normal r, tr') ->
  In (VStr "end_date must be after start_date") (seg_errors r) ->
  exists start_date end_date ts te,
    Obj.get segment "start_date" = Normal start_date
    /\ Obj.get segment "end_date" = Normal end_date
    /\ JS.truthy start_date = true /\ JS.truthy end_date = true
    /\ JS.Date_new start_date = Some ts
    /\ JS.Date_new end_date = Some te
    /\ te <= ts.
Proof.
  intros H Hin.
  destruct (validateSegment_inv _ _ _ _ H)
    as (c & l & s & e & e1 & e2 & tr1 & Hc & Hl & Hs & He & Cs & Ls & Herr & _).
  rewrite Herr in Hin.
  assert (H1 : ~ In (VStr "end_date must be after start_date") e1).
  { destruct Cs as [(_ & _ & ->)|(_ & _ & [(-> & _)| ->])]; simpl;
      intros Hx; repeat (destruct Hx as [Hx|Hx]; [discriminate|]); exact Hx. }
  assert (H2 : ~ In (VStr "end_date must be after start_date") e2).
  { destruct Ls as [(_ & _ & ->)|(_ & _ & [(-> & _)| ->])]; [|exact H1|];
      intros Hx; apply in_app_or in Hx as [Hx|[Hx|[]]]; try contradiction;
      discriminate. }
  apply in_app_or in Hin as [Hin|Hin].
  { apply in_app_or in Hin as [Hin|Hin].
    - apply in_app_or in Hin as [Hin|Hin]; [contradiction|].
      destruct (JS.truthy s); [destruct Hin | destruct Hin as [Hx|[]]; discriminate].
    - destruct (JS.truthy e); [destruct Hin | destruct Hin as [Hx|[]]; discriminate]. }
  destruct (JS.truthy s) eqn:Ts; [|destruct Hin].
  destruct (JS.truthy e) eqn:Te; [|destruct Hin].
  simpl in Hin. destruct (JS.Date_le _ _) eqn:Ed; [|destruct Hin].
  apply Date_le_true in Ed as (te & ts & De & Ds & Hle).
  exists s, e, ts, te. repeat (split; [assumption|]). exact Hle.
Qed.

(** X7. The requests of a validation that returns: the city is read exactly
    when [city_id] is present, the class list exactly when
    [lodging_class] is present, in that order, and nothing else. *)
Theorem validateSegment_requests (segment city_id lodging_class : Value) tr r tr' :
  validateSegment segment tr = (Normal r, tr') ->
  Obj.get segment "city_id" = Normal city_id ->
  Obj.get segment "lodging_class" = Normal lodging_class ->
  tr' = tr
        ++ (if JS.truthy city_id
            then [GET_request destinationsClient ("/cities/" +:+ JS.ToString city_id)]
            else [])
        ++ (if JS.truthy lodging_class
            then [GET_request pricingClient "/lodging-classes"]
            else []).
Proof.
  intros H Gc Gl.
  destruct (validateSegment_inv _ _ _ _ H)
    as (c & l & s & e & e1 & e2 & tr1 & Hc & Hl & _ & _ & Cs & Ls & _ & _).
  rewrite Gc in Hc. injection Hc as <-. rewrite Gl in Hl. injection Hl as <-.
  destruct Cs as [(-> & -> & _)|(-> & -> & _)];
    destruct Ls as [(-> & -> & _)|(-> & -> & _)]; simpl;
    now rewrite ?app_nil_r, <- ?app_assoc.
Qed.

(** X8. The lodging-class check needs an array: when the pricing service
    answers with anything else, such as a [{data: [...]}] wrapper, the
    check throws a TypeError instead of returning a result. *)
Theorem validateLodgingClass_needs_array (lodgingClass classes : Value) tr :
  serves pricingClient "/lodging-classes" classes ->
  (forall l, classes <> VArr l) ->
  exists e,
    validateLodgingClass lodgingClass tr
    = (Throw e, tr ++ [GET_request pricingClient "/lodging-classes"])
    /\ err_name e = "TypeError"%string.
Proof.
  intros Hs Hna. unfold validateLodgingClass, try_catch.
  rewrite (bind_normal _ _ _ _ _ (HttpClient_get_serves _ _ _ tr Hs)).
  unfold bind, sync, Obj.some.
  destruct classes as [| |b|n|s|l|o|f]; simpl; try (eexists; split; reflexivity).
  now destruct (Hna l).
Qed.

(** X9. Any failure status on the read of a city whose identifier contains
    "404" is reported as the city not existing: the error message carries
    the URL, and the URL carries the identifier. *)
Theorem validateCityExists_id_containing_404 (cityId : Value) (st : N) (txt : string) tr :
  Str.includes "404" (JS.ToString cityId) = true ->
  refused (GET_request destinationsClient ("/cities/" +:+ JS.ToString cityId)) st txt ->
  validateCityExists cityId tr
  = (Normal {| ref_valid := false;
               ref_error := Some ("City with ID '" +:+ JS.ToString cityId
                                  +:+ "' does not exist") |},
     tr ++ [GET_request destinationsClient ("/cities/" +:+ JS.ToString cityId)]).
Proof.
  intros Hid Hr. unfold validateCityExists, try_catch.
  rewrite (bind_throw _ _ _ _ _ (HttpClient_get_refused _ _ _ _ tr Hr)).
  cbn [err_message Error].
  replace (Str.includes "404" _) with true; [reflexivity|].
  symmetry. do 6 apply includes_app_r. exact Hid.
Qed.

End SegmentTheorems.

(** ** Creating a composite itinerary: the paths after validation *)

Lemma nonempty_array_None (segments : Value) :
  (forall x l, segments <> VArr (x :: l)) -> nonempty_array segments = None.
Proof.
  intros H. destruct segments as [| |b|n|s|l|o|f]; try reflexivity.
  - unfold nonempty_array. now destruct (JS.truthy _).
  - unfold nonempty_array. now destruct (JS.truthy _).
  - unfold nonempty_array. now destruct (JS.truthy _).
  - destruct l as [|x l]; [reflexivity | now destruct (H x l)].
Qed.

Lemma nonempty_array_Some (segments : list Value) :
  segments <> [] -> nonempty_array (VArr segments) = Some segments.
Proof. destruct segments; [contradiction | reflexivity]. Qed.

Lemma filter_invalid_nil (results : list SegmentValidation) (g : nat -> nat) :
  Forall (fun r => seg_valid r = true) results ->
  List.filter (fun r : nat * SegmentValidation => negb (seg_valid (snd r)))
              (imap (fun i r => (g i, r)) results) = [].
Proof.
  intros H. revert g. induction H as [|r results Hr _ IH]; intros g; [reflexivity|].
  simpl. rewrite Hr. simpl. apply (IH (g ∘ S)).
Qed.

Lemma Promise_all_Forall2 {A B} (f : A -> Async B) (calls : A -> Trace)
    (l : list A) (rs : list B) :
  Forall2 (fun x y => forall tr, f x tr = (Normal y, tr ++ calls x)) l rs ->
  forall tr,
    Promise_all (List.map f l) tr = (Normal rs, tr ++ concat (List.map calls l)).
Proof.
  induction 1 as [|x y l rs Hx _ IH]; intros tr; simpl.
  - now rewrite app_nil_r.
  - rewrite Hx, IH. now rewrite app_assoc.
Qed.

Lemma concat_map_singleton {A B} (h : A -> B) (l : list A) :
  concat (List.map (fun x => [h x]) l) = List.map h l.
Proof. induction l as [|x l IH]; simpl; [reflexivity | now rewrite IH]. Qed.

Section CreateMore.
Context {E : Engine} {U : Upstream} {P : ProcessEnv}.

(** X10. Without an itinerary the request is refused at once: no segment is
    looked at and no request is issued. *)
Theorem post_itineraries_missing_itinerary (req_body : list (string * Value)) tr :
  JS.truthy (Spec.field "itinerary" req_body) = false ->
  post_itineraries (VObj req_body) tr
  = ({| code := 400; json := VObj [("error", VStr "Missing itinerary data")] |}, tr).
Proof.
  intros Hi. unfold post_itineraries, route.
  rewrite (bind_sync _ _ _ (Spec.field "itinerary" req_body)) by reflexivity.
  rewrite (bind_sync _ _ _ (Spec.field "segments" req_body)) by reflexivity.
  now rewrite Hi.
Qed.

(** X11. Segments that are absent, an empty array, or not an array at all are
    skipped without validation and without an error: the itinerary is
    created by the only request issued, and the reply is 201 with an empty
    [segments] array. *)
Theorem post_itineraries_without_segments
    (req_body itinerary segments createdItinerary : Value) tr :
  Obj.get req_body "itinerary" = Normal itinerary ->
  JS.truthy itinerary = true ->
  Obj.get req_body "segments" = Normal segments ->
  (forall x l, segments <> VArr (x :: l)) ->
  creates itinerariesClient "/itineraries" itinerary createdItinerary ->
  post_itineraries req_body tr
  = ({| code := 201; json := JS.extend createdItinerary [("segments", VArr [])] |},
     tr ++ [POST_request itinerariesClient "/itineraries" itinerary]).
Proof.
  intros Hi Ti Hs Hna Hc. unfold post_itineraries, route.
  rewrite (bind_sync _ _ _ _ Hi), (bind_sync _ _ _ _ Hs), Ti.
  change (negb true) with false. cbv iota.
  rewrite (nonempty_array_None _ Hna).
  unfold bind at 1. unfold ret at 1.
  now rewrite (bind_normal _ _ _ _ _ (HttpClient_post_creates _ _ _ _ tr Hc)).
Qed.

(** The handler once every segment has been validated and found valid:
    what remains is the creation. *)
Lemma post_itineraries_validated (req_body itinerary : Value)
    (segments : list Value) (results : list SegmentValidation) tr tr1 :
  Obj.get req_body "itinerary" = Normal itinerary ->
  JS.truthy itinerary = true ->
  Obj.get req_body "segments" = Normal (VArr segments) ->
  segments <> [] ->
  Promise_all (List.map validateSegment segments) tr = (Normal results, tr1) ->
  Forall (fun r => seg_valid r = true) results ->
  post_itineraries req_body tr
  = route "Failed to create composite itinerary"
      (let* createdItinerary :=
         HttpClient_post itinerariesClient "/itineraries" itinerary in
       let* createdSegments :=
         Promise_all
           (List.map
              (fun segment =>
                 let* id := sync (Obj.get createdItinerary "id") in
                 HttpClient_post itinerariesClient
                   ("/itineraries/" +:+ JS.ToString id +:+ "/segments") segment)
              segments) in
       ret {| code := 201;
              json := JS.extend createdItinerary
                        [("segments", VArr createdSegments)] |}) tr1.
Proof.
  intros Hi Ti Hs Hne Hv Hall. unfold post_itineraries, route.
  rewrite (bind_sync _ _ _ _ Hi), (bind_sync _ _ _ _ Hs), Ti.
  change (negb true) with false. cbv iota.
  rewrite (nonempty_array_Some _ Hne). unfold validate_indexed.
  unfold bind at 1. unfold bind at 1.
  rewrite (Promise_all_indexed (fun i => i) segments tr), Hv.
  rewrite (filter_invalid_nil results (fun i => i) Hall).
  reflexivity.
Qed.

(** X12. The whole creation. After every segment has been validated, by reads
    only, the itinerary is posted first, then every segment, in order, to
    the segments collection of the created itinerary; the reply is 201
    with the created itinerary's fields and the created segments under
    [segments]. *)
Theorem post_itineraries_creates (req_body itinerary createdItinerary id : Value)
    (segments createdSegments : list Value) (results : list SegmentValidation) tr tr1 :
  Obj.get req_body "itinerary" = Normal itinerary ->
  JS.truthy itinerary = true ->
  Obj.get req_body "segments" = Normal (VArr segments) ->
  segments <> [] ->
  Promise_all (List.map validateSegment segments) tr = (Normal results, tr1) ->
  Forall (fun r => seg_valid r = true) results ->
  creates itinerariesClient "/itineraries" itinerary createdItinerary ->
  Obj.get createdItinerary "id" = Normal id ->
  Forall2 (creates itinerariesClient
             ("/itineraries/" +:+ JS.ToString id +:+ "/segments"))
          segments createdSegments ->
  post_itineraries req_body tr
  = ({| code := 201;
        json := JS.extend createdItinerary [("segments", VArr createdSegments)] |},
     tr1 ++ POST_request itinerariesClient "/itineraries" itinerary
         :: List.map (POST_request itinerariesClient
                        ("/itineraries/" +:+ JS.ToString id +:+ "/segments"))
                     segments)
  /\ exists reads, tr1 = tr ++ reads /\ Forall is_read reads.
Proof.
  intros Hi Ti Hs Hne Hv Hall Hc Hid Hseg. split.
  - rewrite (post_itineraries_validated _ _ _ _ _ _ Hi Ti Hs Hne Hv Hall). unfold route.
    rewrite (bind_normal _ _ _ _ _ (HttpClient_post_creates _ _ _ _ tr1 Hc)).
    set (post_segment := fun segment : Value =>
           let* id0 := sync (Obj.get createdItinerary "id") in
           HttpClient_post itinerariesClient
             ("/itineraries/" +:+ JS.ToString id0 +:+ "/segments") segment).
    assert (Hposts :
      Forall2 (fun segment stored => forall tr0,
                 post_segment segment tr0
                 = (Normal stored,
                    tr0 ++ [POST_request itinerariesClient
                              ("/itineraries/" +:+ JS.ToString id +:+ "/segments")
                              segment]))
              segments createdSegments).
    { eapply Forall2_impl; [exact Hseg|]. intros segment stored Hx tr0.
      unfold post_segment. rewrite (bind_sync _ _ _ _ Hid).
      apply (HttpClient_post_creates _ _ _ _ tr0 Hx). }
    rewrite (bind_normal _ _ _ _ _ (Promise_all_Forall2 _ _ _ _ Hposts _)).
    unfold ret.
    rewrite (concat_map_singleton
               (POST_request itinerariesClient
                  ("/itineraries/" +:+ JS.ToString id +:+ "/segments"))).
    now rewrite <- app_assoc.
  - apply (reads_only_Promise_all (List.map validateSegment segments)) in Hv;
      [exact Hv|].
    clear. induction segments as [|segment segments IH]; simpl; constructor;
      [apply validateSegment_reads_only | exact IH].
Qed.

(** X13. No rollback. When a segment cannot be created the reply is 500, yet
    the itinerary has been posted and so has every segment: the itinerary
    and the segments that were accepted stay created. *)
Theorem post_itineraries_partial (req_body itinerary createdItinerary id : Value)
    (segments : list Value) (results : list SegmentValidation) tr tr1 :
  Obj.get req_body "itinerary" = Normal itinerary ->
  JS.truthy itinerary = true ->
  Obj.get req_body "segments" = Normal (VArr segments) ->
  Promise_all (List.map validateSegment segments) tr = (Normal results, tr1) ->
  Forall (fun r => seg_valid r = true) results ->
  creates itinerariesClient "/itineraries" itinerary createdItinerary ->
  Obj.get createdItinerary "id" = Normal id ->
  Exists (fun segment =>
            forall stored,
              ~ creates itinerariesClient
                  ("/itineraries/" +:+ JS.ToString id +:+ "/segments") segment stored)
         segments ->
  code (fst (post_itineraries req_body tr)) = 500%N
  /\ snd (post_itineraries req_body tr)
     = tr1 ++ POST_request itinerariesClient "/itineraries" itinerary
           :: List.map (POST_request itinerariesClient
                          ("/itineraries/" +:+ JS.ToString id +:+ "/segments"))
                       segments.
Proof.
  intros Hi Ti Hs Hv Hall Hc Hid Hex.
  assert (Hne : segments <> []) by (intros ->; inversion Hex).
  rewrite (post_itineraries_validated _ _ _ _ _ _ Hi Ti Hs Hne Hv Hall). unfold route.
  rewrite (bind_normal _ _ _ _ _ (HttpClient_post_creates _ _ _ _ tr1 Hc)).
  set (post_segment := fun segment : Value =>
         let* id0 := sync (Obj.get createdItinerary "id") in
         HttpClient_post itinerariesClient
           ("/itineraries/" +:+ JS.ToString id0 +:+ "/segments") segment).
  set (tr2 := tr1 ++ [POST_request itinerariesClient "/itineraries" itinerary]).
  pose proof (Promise_all_trace post_segment
                (fun segment => [POST_request itinerariesClient
                                   ("/itineraries/" +:+ JS.ToString id +:+ "/segments")
                                   segment])
                segments
                ltac:(intros x tr0; unfold post_segment;
                      rewrite (bind_sync _ _ _ _ Hid);
                      apply HttpClient_post_trace) tr2) as Htrace.
  destruct (Promise_all_rejects post_segment segments tr2) as (e & He).
  { eapply Exists_impl; [exact Hex|]. intros segment Hx tr0. unfold post_segment.
    rewrite (bind_sync _ _ _ _ Hid).
    destruct (HttpClient_post _ _ segment tr0) as [[v|e] tr3] eqn:Ep; [|now exists e].
    exfalso. apply (Hx v). apply (HttpClient_post_resolves _ _ _ _ tr0). now rewrite Ep. }
  unfold bind. destruct (Promise_all (List.map post_segment segments) tr2) as [rs tr3].
  simpl in He, Htrace. subst rs tr3. simpl. split; [reflexivity|].
  subst tr2.
  rewrite (concat_map_singleton
             (POST_request itinerariesClient
                ("/itineraries/" +:+ JS.ToString id +:+ "/segments"))).
  now rewrite <- app_assoc.
Qed.

(** X14. When the created itinerary carries no [id], the segments are posted
    to [/itineraries/undefined/segments]. *)
Theorem post_itineraries_undefined_id (req_body itinerary : Value)
    (createdItinerary : list (string * Value))
    (segments : list Value) (results : list SegmentValidation) tr tr1 :
  Obj.get req_body "itinerary" = Normal itinerary ->
  JS.truthy itinerary = true ->
  Obj.get req_body "segments" = Normal (VArr segments) ->
  segments <> [] ->
  Promise_all (List.map validateSegment segments) tr = (Normal results, tr1) ->
  Forall (fun r => seg_valid r = true) results ->
  creates itinerariesClient "/itineraries" itinerary (VObj createdItinerary) ->
  JS.assoc "id" createdItinerary = None ->
  snd (post_itineraries req_body tr)
  = tr1 ++ POST_request itinerariesClient "/itineraries" itinerary
        :: List.map (POST_request itinerariesClient "/itineraries/undefined/segments")
                    segments.
Proof.
  intros Hi Ti Hs Hne Hv Hall Hc Hid.
  rewrite (post_itineraries_validated _ _ _ _ _ _ Hi Ti Hs Hne Hv Hall). unfold route.
  rewrite (bind_normal _ _ _ _ _ (HttpClient_post_creates _ _ _ _ tr1 Hc)).
  set (post_segment := fun segment : Value =>
         let* id0 := sync (Obj.get (VObj createdItinerary) "id") in
         HttpClient_post itinerariesClient
           ("/itineraries/" +:+ JS.ToString id0 +:+ "/segments") segment).
  set (tr2 := tr1 ++ [POST_request itinerariesClient "/itineraries" itinerary]).
  pose proof (Promise_all_trace post_segment
                (fun segment => [POST_request itinerariesClient
                                   "/itineraries/undefined/segments" segment])
                segments
                ltac:(intros x tr0; unfold post_segment; simpl Obj.get; rewrite Hid;
                      apply HttpClient_post_trace) tr2) as Htrace.
  unfold bind. destruct (Promise_all (List.map post_segment segments) tr2) as [[rs|e] tr3];
    simpl in Htrace; subst tr3 tr2; simpl;
    rewrite (concat_map_singleton
               (POST_request itinerariesClient "/itineraries/undefined/segments"));
    now rewrite <- app_assoc.
Qed.

End CreateMore.

(** ** What the routes reply, and to whom they talk *)

Section ReturnsOnly.
Context {A B : Type}.

Lemma returns_only_ret (R : A -> Prop) (a : A) : R a -> returns_only R (ret a).
Proof. intros Ha tr a0 tr' [= <- _]. exact Ha. Qed.

Lemma returns_only_bind (R : B -> Prop) (p : Async A) (k : A -> Async B) :
  (forall a, returns_only R (k a)) -> returns_only R (bind p k).
Proof.
  intros Hk tr b tr' H. invert_bind H. eapply Hk; eauto.
Qed.

Lemma returns_only_bind_with (RA : A -> Prop) (R : B -> Prop)
    (p : Async A) (k : A -> Async B) :
  returns_only RA p -> (forall a, RA a -> returns_only R (k a)) ->
  returns_only R (bind p k).
Proof.
  intros Hp Hk tr b tr' H. invert_bind H. eapply Hk; eauto.
Qed.

Lemma issues_only_bind_rejecting (Q : Request -> Prop) (p : Async A) (k : A -> Async B) :
  issues_only Q p -> returns_only (fun _ => False) p -> issues_only Q (bind p k).
Proof.
  intros Hp Hn tr r tr'. unfold bind.
  destruct (p tr) as [[a|e] tr1] eqn:Ep; [destruct (Hn _ _ _ Ep)|].
  intros [= <- <-]. eapply Hp; eauto.
Qed.

Lemma returns_only_bind_sync (R : B -> Prop) (c : Completion A) (k : A -> Async B) a :
  c = Normal a -> returns_only R (k a) -> returns_only R (bind (sync c) k).
Proof. intros -> Hk tr b tr' H. eapply Hk. exact H. Qed.

Lemma issues_only_bind_sync (Q : Request -> Prop) (c : Completion A) (k : A -> Async B) a :
  c = Normal a -> issues_only Q (k a) -> issues_only Q (bind (sync c) k).
Proof. intros -> Hk tr b tr' H. eapply Hk. exact H. Qed.

End ReturnsOnly.

Lemma route_replies {E : Engine} (R : Reply -> Prop) (fallback : string)
    (p : Async Reply) :
  returns_only R p ->
  (forall message,
     R {| code := 500;
          json := VObj [("error", JS.or (VStr message) (VStr fallback))] |}) ->
  forall tr, R (fst (route fallback p tr)).
Proof.
  intros Hp H500 tr. unfold route.
  destruct (p tr) as [[reply|e] tr'] eqn:Ep; simpl; [eapply Hp; eauto | apply H500].
Qed.

(** Breaks a computation down along its binds and branches. *)
Ltac returns_step :=
  first
    [ apply returns_only_ret
    | apply returns_only_bind; intros ?
    | match goal with
      | |- returns_only _ (let '(_, _) := ?x in _) => destruct x
      | |- returns_only _ (if ?c then _ else _) => destruct c
      | |- returns_only _ (match ?x with _ => _ end) => destruct x
      end
    | progress cbv beta zeta ].

Ltac issues_step :=
  first
    [ apply issues_only_ret
    | apply issues_only_throw
    | apply issues_only_sync
    | apply HttpClient_get_issues
    | apply HttpClient_post_issues
    | apply issues_only_Promise_all2
    | apply issues_only_Promise_all_map; intros ?
    | apply issues_only_imap; intros ? ?
    | apply issues_only_try_catch; [|intros ?]
    | apply issues_only_bind; [|intros ?]
    | match goal with
      | |- issues_only _ (let '(_, _) := ?x in _) => destruct x
      | |- issues_only _ (if ?c then _ else _) => destruct c
      | |- issues_only _ (match ?x with _ => _ end) => destruct x
      end
    | progress cbv beta zeta ].

Section Routes.
Context {E : Engine} {U : Upstream} {P : ProcessEnv}.

Lemma to_service_destinations (rest : string) (m : Method) (b : option Value) :
  to_service {| req_method := m; req_url := baseUrl destinationsClient +:+ "/" +:+ rest;
                req_body := b |}.
Proof. exists destinationsClient, rest. split; [now left | reflexivity]. Qed.

Lemma to_service_pricing (rest : string) (m : Method) (b : option Value) :
  to_service {| req_method := m; req_url := baseUrl pricingClient +:+ "/" +:+ rest;
                req_body := b |}.
Proof. exists pricingClient, rest. split; [right; now left | reflexivity]. Qed.

Lemma to_service_itineraries (rest : string) (m : Method) (b : option Value) :
  to_service {| req_method := m; req_url := baseUrl itinerariesClient +:+ "/" +:+ rest;
                req_body := b |}.
Proof. exists itinerariesClient, rest. split; [right; right; now left | reflexivity]. Qed.

Ltac service_goal :=
  first [ split; [reflexivity|] | idtac ];
  first [ apply to_service_destinations
        | apply to_service_pricing
        | apply to_service_itineraries ].

Lemma validateSegment_issues segment : issues_only read_of_service (validateSegment segment).
Proof.
  unfold validateSegment, validateCityExists, validateLodgingClass.
  repeat issues_step; service_goal.
Qed.

Lemma fetch_city_and_rates_issues segment :
  issues_only read_of_service (fetch_city_and_rates segment).
Proof. unfold fetch_city_and_rates. repeat issues_step; service_goal. Qed.

Lemma get_itinerary_issues itineraryId :
  handler_issues_only read_of_service (get_itinerary itineraryId).
Proof.
  apply handler_issues_only_route. unfold enrich_segment.
  repeat first [apply fetch_city_and_rates_issues | issues_step]; service_goal.
Qed.

Lemma get_destinations_issues : handler_issues_only read_of_service get_destinations.
Proof.
  apply handler_issues_only_route.
  repeat issues_step; service_goal.
Qed.

Lemma get_quotes_issues itineraryId :
  handler_issues_only read_of_service (get_quotes itineraryId).
Proof.
  apply handler_issues_only_route. unfold quote_segment.
  repeat first [apply fetch_city_and_rates_issues | issues_step]; service_goal.
Qed.

Lemma post_itineraries_issues req_body :
  handler_issues_only to_service (post_itineraries req_body).
Proof.
  apply handler_issues_only_route. unfold validate_indexed.
  repeat first
    [ apply (issues_only_weaken read_of_service to_service);
      [now intros r [_ Hr] | apply validateSegment_issues]
    | issues_step ];
    service_goal.
Qed.

End Routes.

Section RouteTheorems.
Context {E : Engine} {U : Upstream} {P : ProcessEnv}.

(** X15. The three reading routes never write: whatever the upstream services
    answer, every request they issue is a GET. *)
Theorem get_routes_read_only :
  (forall itineraryId, handler_issues_only is_read (get_itinerary itineraryId))
  /\ handler_issues_only is_read get_destinations
  /\ (forall itineraryId, handler_issues_only is_read (get_quotes itineraryId)).
Proof.
  repeat split; intros;
    apply (handler_issues_only_weaken read_of_service is_read);
    try (now intros r [Hr _]);
    [apply get_itinerary_issues | apply get_destinations_issues | apply get_quotes_issues].
Qed.

(** X16. Every request of every route is addressed to one of the three
    configured services: its URL is one of the three base URLs followed by
    an absolute path. *)
Theorem routes_call_configured_services :
  (forall itineraryId, handler_issues_only to_service (get_itinerary itineraryId))
  /\ handler_issues_only to_service get_destinations
  /\ (forall req_body, handler_issues_only to_service (post_itineraries req_body))
  /\ (forall itineraryId, handler_issues_only to_service (get_quotes itineraryId)).
Proof.
  repeat split; intros; try apply post_itineraries_issues;
    apply (handler_issues_only_weaken read_of_service to_service);
    try (now intros r [_ Hr]);
    [apply get_itinerary_issues | apply get_destinations_issues | apply get_quotes_issues].
Qed.

Lemma or_message_nonempty (message fallback : string) :
  fallback <> EmptyString ->
  exists msg, JS.or (VStr message) (VStr fallback) = VStr msg /\ msg <> EmptyString.
Proof.
  intros Hf. unfold JS.or. simpl.
  destruct (String.eqb_spec message EmptyString) as [->|Hne]; simpl; eauto.
Qed.

(** X17. The status codes. A reading route answers 200 or 500 and nothing
    else; the creating route answers 201, 400 or 500. In particular an
    upstream 404 is never passed on as a 404. *)
Theorem routes_status_codes :
  (forall itineraryId, replies_with [200; 500]%N (get_itinerary itineraryId))
  /\ replies_with [200; 500]%N get_destinations
  /\ (forall req_body, replies_with [201; 400; 500]%N (post_itineraries req_body))
  /\ (forall itineraryId, replies_with [200; 500]%N (get_quotes itineraryId)).
Proof.
  repeat split; intros; intros tr.
  - apply (route_replies (fun r => In (code r) [200; 500]%N)); [|intros; simpl; auto].
    repeat returns_step; simpl; auto.
  - apply (route_replies (fun r => In (code r) [200; 500]%N)); [|intros; simpl; auto].
    repeat returns_step; simpl; auto.
  - apply (route_replies (fun r => In (code r) [201; 400; 500]%N)); [|intros; simpl; auto].
    do 2 returns_step. destruct (negb _); [apply returns_only_ret; simpl; auto|].
    apply (returns_only_bind_with
             (fun rejected => match rejected with
                              | Some reply => code reply = 400%N
                              | None => True
                              end)).
    + destruct (nonempty_array _); repeat returns_step; simpl; auto.
    + intros [reply|] Hr; repeat returns_step; simpl; auto.
  - apply (route_replies (fun r => In (code r) [200; 500]%N)); [|intros; simpl; auto].
    repeat returns_step; simpl; auto.
Qed.

(** X18. The error contract. Every reply that is not a success is an object
    whose [error] property is a non-empty string: the message of the
    failure, or the route's fallback text when that message is empty. *)
Theorem routes_error_contract :
  (forall itineraryId tr,
     code (fst (get_itinerary itineraryId tr)) <> 200%N ->
     error_reply (fst (get_itinerary itineraryId tr)))
  /\ (forall tr,
        code (fst (get_destinations tr)) <> 200%N ->
        error_reply (fst (get_destinations tr)))
  /\ (forall req_body tr,
        code (fst (post_itineraries req_body tr)) <> 201%N ->
        error_reply (fst (post_itineraries req_body tr)))
  /\ (forall itineraryId tr,
        code (fst (get_quotes itineraryId tr)) <> 200%N ->
        error_reply (fst (get_quotes itineraryId tr))).
Proof.
  assert (H500 : forall fallback, fallback <> EmptyString -> forall c message,
            code {| code := 500;
                    json := VObj [("error", JS.or (VStr message) (VStr fallback))] |} <> c ->
            error_reply {| code := 500;
                           json := VObj [("error", JS.or (VStr message) (VStr fallback))] |}).
  { intros fallback Hf c message _.
    destruct (or_message_nonempty message fallback Hf) as (msg & Hm & Hne).
    exists msg, []. simpl. now rewrite Hm. }
  repeat split; intros.
  - revert H. apply (route_replies (fun r => code r <> 200%N -> error_reply r));
      [|apply H500; discriminate].
    repeat returns_step; simpl; intros Hx; now destruct Hx.
  - revert H. apply (route_replies (fun r => code r <> 200%N -> error_reply r));
      [|apply H500; discriminate].
    repeat returns_step; simpl; intros Hx; now destruct Hx.
  - revert H. apply (route_replies (fun r => code r <> 201%N -> error_reply r));
      [|apply H500; discriminate].
    do 2 returns_step. destruct (negb _).
    { apply returns_only_ret. intros _. exists "Missing itinerary data"%string, [].
      split; [reflexivity | discriminate]. }
    apply (returns_only_bind_with
             (fun rejected => match rejected with
                              | Some reply => error_reply reply
                              | None => True
                              end)).
    + destruct (nonempty_array _); repeat returns_step; simpl; auto.
      eexists "Segment validation failed"%string, _. split; [reflexivity | discriminate].
    + intros [reply|] Hr; repeat returns_step; simpl; auto.
      intros Hx; now destruct Hx.
  - revert H. apply (route_replies (fun r => code r <> 200%N -> error_reply r));
      [|apply H500; discriminate].
    repeat returns_step; simpl; intros Hx; now destruct Hx.
Qed.

(** X19. The itinerary comes first. If the itinerary cannot be created, the
    reply is not 201 and no segment is ever posted: every request issued
    is a read or the one POST of the itinerary. *)
Theorem post_itineraries_itinerary_first (req_body itinerary : Value) tr :
  Obj.get req_body "itinerary" = Normal itinerary ->
  (forall createdItinerary,
     ~ creates itinerariesClient "/itineraries" itinerary createdItinerary) ->
  code (fst (post_itineraries req_body tr)) <> 201%N
  /\ exists calls,
       snd (post_itineraries req_body tr) = tr ++ calls
       /\ Forall (fun r => is_read r
                           \/ r = POST_request itinerariesClient "/itineraries" itinerary)
                 calls.
Proof.
  intros Hi Hno.
  assert (Hpost : returns_only (fun _ : Value => False)
                    (HttpClient_post itinerariesClient "/itineraries" itinerary)).
  { intros tr0 v tr1 H. apply (Hno v). apply (HttpClient_post_resolves _ _ _ _ tr0).
    now rewrite H. }
  split.
  - apply (route_replies (fun r => code r <> 201%N)); [|discriminate].
    apply (returns_only_bind_sync _ _ _ _ Hi).
    returns_step. destruct (negb _); [apply returns_only_ret; discriminate|].
    apply (returns_only_bind_with
             (fun rejected => match rejected with
                              | Some reply => code reply = 400%N
                              | None => True
                              end)).
    + destruct (nonempty_array _); repeat returns_step; simpl; auto.
    + intros [reply|] Hr; [apply returns_only_ret; now rewrite Hr|].
      intros tr0 reply tr1 H. invert_bind H. destruct (Hpost _ _ _ Hp).
  - apply handler_issues_only_route.
    apply (issues_only_bind_sync _ _ _ _ Hi).
    apply issues_only_bind; [apply issues_only_sync | intros segments].
    destruct (negb _); [apply issues_only_ret|].
    apply issues_only_bind; [|intros rejected].
    + unfold validate_indexed.
      repeat first
        [ apply (issues_only_weaken is_read); [now left | apply validateSegment_reads_only]
        | issues_step ].
    + destruct rejected as [reply|]; [apply issues_only_ret|].
      apply issues_only_bind_rejecting; [|exact Hpost].
      apply HttpClient_post_issues. now right.
Qed.

End RouteTheorems.

(** ** The requests of the reading routes *)

(** A computation that issues no request. *)
Lemma silent_trace {A} (p : Async A) tr :
  issues_only (fun _ => False) p -> snd (p tr) = tr.
Proof.
  intros Hp. destruct (p tr) as [r tr'] eqn:Ep.
  destruct (Hp _ _ _ Ep) as (calls & -> & F). simpl.
  destruct calls as [|c calls]; [apply app_nil_r | now inversion F].
Qed.

Lemma bind_silent_trace {A B} (p : Async A) (k : A -> Async B) tr :
  (forall a, issues_only (fun _ => False) (k a)) ->
  snd (bind p k tr) = snd (p tr).
Proof.
  intros Hk. unfold bind. destruct (p tr) as [[a|e] tr1]; [|reflexivity].
  simpl. now apply silent_trace.
Qed.

Lemma Promise_all2_trace {A B} (p : Async A) (q : Async B) tr :
  snd (Promise_all2 p q tr) = snd (q (snd (p tr))).
Proof.
  unfold Promise_all2. destruct (p tr) as [r1 tr1]. simpl.
  now destruct (q tr1) as [r2 tr2].
Qed.

Lemma Promise_all2_throws {A B} (p : Async A) (q : Async B) tr :
  (exists e, fst (p tr) = Throw e) \/ (exists e, fst (q (snd (p tr))) = Throw e) ->
  exists e, fst (Promise_all2 p q tr) = Throw e.
Proof.
  unfold Promise_all2. destruct (p tr) as [r1 tr1]. simpl.
  destruct (q tr1) as [r2 tr2]. simpl.
  intros [(e & ->)|(e & ->)]; [now exists e|].
  destruct r1 as [a|e1]; eauto.
Qed.

Lemma route_throw {E : Engine} (fallback : string) (p : Async Reply) tr e :
  fst (p tr) = Throw e ->
  code (fst (route fallback p tr)) = 500%N /\ snd (route fallback p tr) = snd (p tr).
Proof.
  unfold route. destruct (p tr) as [[reply|e0] tr']; simpl; [discriminate|]. now intros _.
Qed.

Lemma route_trace {E : Engine} (fallback : string) (p : Async Reply) tr :
  snd (route fallback p tr) = snd (p tr).
Proof. unfold route. now destruct (p tr) as [[reply|e0] tr']. Qed.

Lemma bind_fst_throw {A B} (p : Async A) (k : A -> Async B) tr e :
  fst (p tr) = Throw e -> bind p k tr = (Throw e, snd (p tr)).
Proof. unfold bind. destruct (p tr) as [[a|e0] tr']; simpl; [discriminate|]. now intros [= ->]. Qed.

Section ReadingRoutes.
Context {E : Engine} {U : Upstream} {P : ProcessEnv}.

Lemma HttpClient_get_not_served client path tr :
  (forall v, ~ serves client path v) ->
  exists e, fst (HttpClient_get client path tr) = Throw e.
Proof.
  intros Hno. destruct (HttpClient_get client path tr) as [[v|e] tr1] eqn:Eg; [|now exists e].
  exfalso. apply (Hno v). apply (HttpClient_get_resolves _ _ _ tr). now rewrite Eg.
Qed.

Lemma HttpClient_get_returned client path tr v tr' :
  HttpClient_get client path tr = (Normal v, tr') -> serves client path v.
Proof. intros H. apply (HttpClient_get_resolves _ _ _ tr). now rewrite H. Qed.

(** X20. A missing itinerary is a server error. When either of the two
    initial reads is not answered with a success status and a JSON body
    (not found, a 5xx, no connection), the reply is 500, not 404, and
    the two reads are the only requests: no city or rate is looked up. *)
Theorem get_itinerary_upstream_failure (itineraryId : string) tr :
  (forall v, ~ serves itinerariesClient ("/itineraries/" +:+ itineraryId) v)
  \/ (forall v,
        ~ serves itinerariesClient ("/itineraries/" +:+ itineraryId +:+ "/segments") v) ->
  code (fst (get_itinerary itineraryId tr)) = 500%N
  /\ snd (get_itinerary itineraryId tr)
     = tr ++ [ GET_request itinerariesClient ("/itineraries/" +:+ itineraryId);
               GET_request itinerariesClient
                 ("/itineraries/" +:+ itineraryId +:+ "/segments") ].
Proof.
  intros Hno. unfold get_itinerary.
  set (both := Promise_all2
                 (HttpClient_get itinerariesClient ("/itineraries/" +:+ itineraryId))
                 (HttpClient_get itinerariesClient
                    ("/itineraries/" +:+ itineraryId +:+ "/segments"))).
  assert (Htr : snd (both tr)
                = tr ++ [ GET_request itinerariesClient ("/itineraries/" +:+ itineraryId);
                          GET_request itinerariesClient
                            ("/itineraries/" +:+ itineraryId +:+ "/segments") ]).
  { unfold both. rewrite Promise_all2_trace, !HttpClient_get_trace.
    now rewrite <- app_assoc. }
  destruct (Promise_all2_throws
              (HttpClient_get itinerariesClient ("/itineraries/" +:+ itineraryId))
              (HttpClient_get itinerariesClient
                 ("/itineraries/" +:+ itineraryId +:+ "/segments")) tr) as (e & He).
  { destruct Hno as [Hno|Hno]; [left | right]; now apply HttpClient_get_not_served. }
  fold both in He.
  match goal with
  | |- context [route ?fb (bind both ?k)] =>
      destruct (route_throw fb (bind both k) tr e) as [Hc Ht];
        [now rewrite (bind_fst_throw both k tr e He)|];
        rewrite Hc, Ht, (bind_fst_throw both k tr e He)
  end.
  split; [reflexivity | exact Htr].
Qed.

(** X21. The failure of the segments read, as the quotes route reports it:
    500, with the client's message, which names the status and the
    internal URL. *)
Theorem get_quotes_segments_refused (itineraryId : string) (st : N) (txt : string) tr :
  refused (GET_request itinerariesClient
             ("/itineraries/" +:+ itineraryId +:+ "/segments")) st txt ->
  get_quotes itineraryId tr
  = ({| code := 500;
        json := VObj [("error",
                       VStr ("HTTP " +:+ pretty st +:+ ": " +:+ txt +:+ " from "
                             +:+ ITINERARIES_URL +:+ "/itineraries/" +:+ itineraryId
                             +:+ "/segments"))] |},
     tr ++ [GET_request itinerariesClient
              ("/itineraries/" +:+ itineraryId +:+ "/segments")]).
Proof.
  intros Hr. unfold get_quotes, route.
  now rewrite (bind_throw _ _ _ _ _ (HttpClient_get_refused _ _ _ _ tr Hr)).
Qed.






(** X24. The destinations route always issues its two reads, and only those,
    whatever they are answered. *)
Theorem get_destinations_two_reads tr :
  snd (get_destinations tr)
  = tr ++ [ GET_request destinationsClient "/cities?limit=100";
            GET_request destinationsClient "/seasons?limit=100" ].
Proof.
  unfold get_destinations. rewrite route_trace.
  rewrite bind_silent_trace by (intros [c s]; repeat issues_step).
  rewrite Promise_all2_trace, !HttpClient_get_trace. now rewrite <- app_assoc.
Qed.

End ReadingRoutes.

(** ** Destinations: the inputs that make the route fail *)

Section DestinationsMore.
Context {E : Engine} {U : Upstream} {P : ProcessEnv}.

Lemma fold_group_season_throw (seasons : list Value) (e : JSError) :
  fold_left (fun a x => cbind a (fun a => group_season a x)) seasons (Throw e)
  = Throw e.
Proof. induction seasons as [|x seasons IH]; [reflexivity | exact IH]. Qed.

(** The grouping object never holds a key that [Object.prototype]
    defines: the first season with such a key makes the callback throw. *)
Lemma reduce_group_season_inherited (seasons : list (list (string * Value)))
      (acc : gmap string (list Value)) :
  (forall k, Obj.inherited k = true -> acc !! k = None) ->
  Exists (fun season => Obj.inherited (Spec.season_key season) = true) seasons ->
  exists e,
    fold_left (fun a x => cbind a (fun a => group_season a x))
              (List.map VObj seasons) (Normal acc) = Throw e.
Proof.
  intros Hacc Hex. revert acc Hacc.
  induction seasons as [|season seasons IH]; intros acc Hacc; [inversion Hex|].
  simpl fold_left. simpl cbind.
  destruct (Obj.inherited (Spec.season_key season)) eqn:Hk.
  - unfold group_season. simpl.
    fold (Spec.field "city_id" season). fold (Spec.season_key season).
    rewrite (Hacc _ Hk), Hk. eexists. apply fold_group_season_throw.
  - rewrite (group_season_step _ _ Hk).
    apply IH.
    + inversion Hex as [? ? Hx|? ? Hx]; subst; [congruence | exact Hx].
    + intros k Hi. rewrite lookup_insert_ne; [now apply Hacc | congruence].
Qed.

Lemma Promise_all2_inv {A B} (p : Async A) (q : Async B) tr a b tr' :
  Promise_all2 p q tr = (Normal (a, b), tr') ->
  exists tr1, p tr = (Normal a, tr1) /\ q tr1 = (Normal b, tr').
Proof.
  unfold Promise_all2. destruct (p tr) as [[a0|e] tr1].
  - destruct (q tr1) as [[b0|e] tr2] eqn:Eq; [|discriminate].
    intros [= <- <- <-]. now exists tr1.
  - destruct (q tr1) as [r tr2]. discriminate.
Qed.

Lemma serves_unique client path v w :
  serves client path v -> serves client path w -> v = w.
Proof.
  intros (st1 & txt1 & H1 & _) (st2 & txt2 & H2 & _). rewrite H1 in H2. congruence.
Qed.

(** X25. One season is enough to fail the whole route: when a season's
    [city_id] is the name of a member of [Object.prototype] (such as
    "constructor" or "toString"), the reply is 500, whatever the cities
    are. *)
Theorem get_destinations_inherited_key (seasonsResponse : Value)
    (seasons : list (list (string * Value))) tr :
  serves destinationsClient "/seasons?limit=100" seasonsResponse ->
  Spec.carries seasonsResponse (List.map VObj seasons) ->
  Exists (fun season => Obj.inherited (Spec.season_key season) = true) seasons ->
  code (fst (get_destinations tr)) = 500%N.
Proof.
  intros Ss Cs Hex.
  unfold get_destinations, route.
  destruct (bind _ _ tr) as [[reply|e] tr'] eqn:Eb; simpl; [|reflexivity]. exfalso.
  invert_bind Eb. destruct a as [citiesResponse seasonsResponse0].
  apply Promise_all2_inv in Hp as (tr1 & _ & Hs2).
  assert (seasonsResponse0 = seasonsResponse) as ->.
  { apply (serves_unique destinationsClient "/seasons?limit=100"); [|exact Ss].
    exact (HttpClient_get_returned _ _ _ _ _ Hs2). }
  invert_bind Eb. clear Hp.
  destruct (carries_unwrap _ _ Cs) as (sd & Gs & Os).
  rewrite (bind_sync _ _ _ _ Gs), Os in Eb.
  invert_bind Eb. injection Hp as Hred _.
  destruct (reduce_group_season_inherited seasons ∅) as (e & He);
    [intros k _; apply lookup_empty | exact Hex|].
  unfold Obj.reduce in Hred. simpl in Hred. rewrite He in Hred. discriminate.
Qed.

End DestinationsMore.

Section DestinationsLists.
Context {E : Engine} {U : Upstream} {P : ProcessEnv}.

(** [response.data || response] is an array only for a response that
    carries a list. *)
Lemma unwrap_carries (response data : Value) (l : list Value) :
  Obj.get response "data" = Normal data ->
  JS.or data response = VArr l ->
  Spec.carries response l.
Proof.
  unfold JS.or. destruct response as [| |b|n|s|l0|o|f]; simpl; try discriminate;
    intros [= <-]; simpl; try discriminate.
  - intros [= ->]. constructor.
  - destruct (JS.assoc "data" o) as [d|] eqn:Ed; simpl; [|discriminate].
    destruct (JS.truthy d) eqn:Td; [|discriminate].
    intros ->. now constructor.
Qed.

Lemma array_method_inv (v : Value) (method : string) (l : list Value) :
  Obj.array_method v method = Normal l -> v = VArr l.
Proof. destruct v; simpl; try discriminate. now intros [= ->]. Qed.

(** X26. The destinations route needs two lists. When a response is served
    that is neither an array nor an object with an array under [data],
    the reply is 500. *)
Theorem get_destinations_needs_lists (response : Value) tr :
  serves destinationsClient "/cities?limit=100" response
  \/ serves destinationsClient "/seasons?limit=100" response ->
  (forall l, ~ Spec.carries response l) ->
  code (fst (get_destinations tr)) = 500%N.
Proof.
  intros Hs Hno. unfold get_destinations, route.
  destruct (bind _ _ tr) as [[reply|e] tr'] eqn:Eb; simpl; [|reflexivity]. exfalso.
  invert_bind Eb. destruct a as [citiesResponse seasonsResponse].
  apply Promise_all2_inv in Hp as (tr1 & Hc1 & Hs1).
  invert_bind Eb. injection Hp as Gc _.
  invert_bind Eb. injection Hp as Gs _.
  invert_bind Eb. injection Hp as Hred _.
  invert_bind Eb. injection Hp as Hmap _.
  unfold Obj.reduce in Hred.
  destruct (Obj.array_method (JS.or a0 seasonsResponse) "reduce") as [ls|e] eqn:As;
    [|discriminate].
  unfold Obj.map in Hmap.
  destruct (Obj.array_method (JS.or a citiesResponse) "map") as [lc|e] eqn:Ac;
    [|discriminate].
  apply array_method_inv in As, Ac.
  destruct Hs as [Hs|Hs].
  - assert (citiesResponse = response) as ->.
    { apply (serves_unique destinationsClient "/cities?limit=100"); [|exact Hs].
      exact (HttpClient_get_returned _ _ _ _ _ Hc1). }
    exact (Hno lc (unwrap_carries _ _ _ Gc Ac)).
  - assert (seasonsResponse = response) as ->.
    { apply (serves_unique destinationsClient "/seasons?limit=100"); [|exact Hs].
      exact (HttpClient_get_returned _ _ _ _ _ Hs1). }
    exact (Hno ls (unwrap_carries _ _ _ Gs As)).
Qed.

End DestinationsLists.

(** ** Quotes: a date that is not a date *)






Section QuotesMore.
Context {E : Engine} {U : Upstream} {P : ProcessEnv}.



End QuotesMore.

(** ** Wrapped answers where a bare array is expected *)

Section Wrapped.
Context {E : Engine} {U : Upstream} {P : ProcessEnv}.


(** X29. The segments must come as a bare array. When the segments read is
    answered with an object, such as a [{data: [...]}] wrapper, the
    composite-itinerary route replies 500, and so does the quotes route
    unless the object has a [length] of 0; neither looks up a city or a
    rate. *)
Theorem segments_must_be_an_array (itineraryId : string)
    (response : list (string * Value)) tr :
  serves itinerariesClient ("/itineraries/" +:+ itineraryId +:+ "/segments")
         (VObj response) ->
  (code (fst (get_itinerary itineraryId tr)) = 500%N
   /\ snd (get_itinerary itineraryId tr)
      = tr ++ [ GET_request itinerariesClient ("/itineraries/" +:+ itineraryId);
                GET_request itinerariesClient
                  ("/itineraries/" +:+ itineraryId +:+ "/segments") ])
  /\ (JS.strict_eq (Spec.field "length" response) (VNum Number.zero) = false ->
      code (fst (get_quotes itineraryId tr)) = 500%N
      /\ snd (get_quotes itineraryId tr)
         = tr ++ [ GET_request itinerariesClient
                     ("/itineraries/" +:+ itineraryId +:+ "/segments") ]).
Proof.
  intros Hs. split.
  - unfold get_itinerary, route, bind, Promise_all2.
    pose proof (HttpClient_get_trace itinerariesClient
                  ("/itineraries/" +:+ itineraryId) tr) as T1.
    destruct (HttpClient_get itinerariesClient ("/itineraries/" +:+ itineraryId) tr)
      as [r1 tr1]. simpl in T1. subst tr1.
    rewrite (HttpClient_get_serves _ _ _ _ Hs).
    destruct r1 as [itinerary|e]; simpl; now rewrite <- app_assoc.
  - intros Hlen. unfold get_quotes, route.
    rewrite (bind_normal _ _ _ _ _ (HttpClient_get_serves _ _ _ tr Hs)).
    rewrite (bind_sync _ _ _ (Spec.field "length" response)) by reflexivity.
    now rewrite Hlen.
Qed.

End Wrapped.

(** ** The further properties at worked examples *)

Ltac served := exists 200%N, "OK"%string; split; [reflexivity | lia].

(** No response of the upstream has a success status. *)
Ltac not_served :=
  let v := fresh "v" in
  let st := fresh "st" in
  let txt := fresh "txt" in
  let Hf := fresh "Hf" in
  let Hst := fresh "Hst" in
  intros v (st & txt & Hf & Hst); vm_compute in Hf; injection Hf as <- _ _; lia.

(** The destinations service is down and the city is "1404": the
    failure messages of both methods. *)
Lemma HttpClient_failure_message_witness :
  fst (@HttpClient_get Scenario.upstream_down (@destinationsClient Scenario.env)
         "/cities/1404" [])
  = Throw (Error "HTTP 500: Internal Server Error from http://localhost:3001/cities/1404")
  /\ fst (@HttpClient_post Scenario.upstream_down (@itinerariesClient Scenario.env)
            "/itineraries" (VObj Cases.title) [])
     = Throw (Error "HTTP 500: Internal Server Error from http://localhost:3003/itineraries").
Proof.
  split.
  - apply (proj1 (@HttpClient_failure_message Scenario.upstream_down
                    (@destinationsClient Scenario.env) "/cities/1404" VNull
                    500%N "Internal Server Error" [])).
    eexists. split; [reflexivity | lia].
  - apply (proj2 (@HttpClient_failure_message Scenario.upstream_down
                    (@itinerariesClient Scenario.env) "/itineraries" (VObj Cases.title)
                    500%N "Internal Server Error" [])).
    eexists. split; [reflexivity | lia].
Defined.


Lemma validateSegment_valid_only_if_witness :
  exists city_id lodging_class start_date end_date,
    Obj.get (VObj Scenario.paris_segment) "city_id" = Normal city_id
    /\ JS.truthy city_id = true
    /\ Obj.get (VObj Scenario.paris_segment) "lodging_class" = Normal lodging_class
    /\ JS.truthy lodging_class = true
    /\ Obj.get (VObj Scenario.paris_segment) "start_date" = Normal start_date
    /\ JS.truthy start_date = true
    /\ Obj.get (VObj Scenario.paris_segment) "end_date" = Normal end_date
    /\ JS.truthy end_date = true
    /\ (exists city,
          @serves Scenario.upstream (@destinationsClient Scenario.env)
            ("/cities/" +:+ @JS.ToString Scenario.engine city_id) city)
    /\ (exists classes,
          @serves Scenario.upstream (@pricingClient Scenario.env) "/lodging-classes" classes
          /\ Obj.some classes (is_class lodging_class) = Normal true)
    /\ JS.Date_le (@JS.Date_new Scenario.engine end_date)
                  (@JS.Date_new Scenario.engine start_date) = false
    /\ seg_errors {| seg_valid := true; seg_errors := [] |} = []
    /\ [ GET_request (@destinationsClient Scenario.env) "/cities/paris";
         GET_request (@pricingClient Scenario.env) "/lodging-classes" ]
       = [] ++ [ GET_request (@destinationsClient Scenario.env)
                   ("/cities/" +:+ @JS.ToString Scenario.engine city_id);
                 GET_request (@pricingClient Scenario.env) "/lodging-classes" ].
Proof.
  apply (@validateSegment_valid_only_if Scenario.engine Scenario.upstream Scenario.env
           (VObj Scenario.paris_segment) []
           {| seg_valid := true; seg_errors := [] |}
           [ GET_request (@destinationsClient Scenario.env) "/cities/paris";
             GET_request (@pricingClient Scenario.env) "/lodging-classes" ]);
    [vm_compute; reflexivity | reflexivity].
Defined.

(** The backwards segment: its date-order error comes from two instants,
    the end three days before the start. *)
Lemma validateSegment_date_error_only_if_witness :
  exists start_date end_date ts te,
    Obj.get (VObj Scenario.backwards_segment) "start_date" = Normal start_date
    /\ Obj.get (VObj Scenario.backwards_segment) "end_date" = Normal end_date
    /\ JS.truthy start_date = true /\ JS.truthy end_date = true
    /\ @JS.Date_new Scenario.engine start_date = Some ts
    /\ @JS.Date_new Scenario.engine end_date = Some te
    /\ te <= ts.
Proof.
  apply (@validateSegment_date_error_only_if Scenario.engine Scenario.upstream Scenario.env
           (VObj Scenario.backwards_segment) []
           {| seg_valid := false;
              seg_errors := [VStr "end_date must be after start_date"] |}
           [ GET_request (@destinationsClient Scenario.env) "/cities/paris";
             GET_request (@pricingClient Scenario.env) "/lodging-classes" ]);
    [vm_compute; reflexivity | now left].
Defined.

(** A segment with a city and nothing else: one read, of the city. *)
Lemma validateSegment_requests_witness :
  [ GET_request (@destinationsClient Scenario.env) "/cities/paris" ]
  = [] ++ [ GET_request (@destinationsClient Scenario.env) "/cities/paris" ] ++ [].
Proof.
  apply (@validateSegment_requests Scenario.engine Scenario.upstream Scenario.env
           (VObj [("city_id", VStr "paris")]) (VStr "paris") VUndefined []
           {| seg_valid := false;
              seg_errors := [ VStr "Segment missing lodging_class";
                              VStr "Segment missing start_date";
                              VStr "Segment missing end_date" ] |}
           [ GET_request (@destinationsClient Scenario.env) "/cities/paris" ]);
    [vm_compute; reflexivity | reflexivity | reflexivity].
Defined.

Lemma validateLodgingClass_needs_array_witness :
  exists e,
    @validateLodgingClass Scenario.engine Cases.wrapped_classes Scenario.env
      (VStr "standard") []
    = (Throw e, [] ++ [GET_request (@pricingClient Scenario.env) "/lodging-classes"])
    /\ err_name e = "TypeError"%string.
Proof.
  apply (@validateLodgingClass_needs_array Scenario.engine Cases.wrapped_classes
           Scenario.env (VStr "standard") (VObj [("data", VArr [VStr "standard"])]) []);
    [served | discriminate].
Defined.

(** City "1404", destinations service down: reported as not existing. *)
Lemma validateCityExists_id_containing_404_witness :
  @validateCityExists Scenario.engine Scenario.upstream_down Scenario.env (VStr "1404") []
  = (Normal {| ref_valid := false;
               ref_error := Some "City with ID '1404' does not exist" |},
     [GET_request (@destinationsClient Scenario.env) "/cities/1404"]).
Proof.
  apply (@validateCityExists_id_containing_404 Scenario.engine Scenario.upstream_down
           Scenario.env (VStr "1404") 500%N "Internal Server Error" []);
    [reflexivity | eexists; split; [reflexivity | lia]].
Defined.

(** Segments without an itinerary: refused before anything is read. *)
Lemma post_itineraries_missing_itinerary_witness :
  @post_itineraries Scenario.engine Scenario.upstream Scenario.env
    (VObj [("segments", VArr [VObj Scenario.paris_segment])]) []
  = ({| code := 400; json := VObj [("error", VStr "Missing itinerary data")] |}, []).
Proof.
  apply (@post_itineraries_missing_itinerary Scenario.engine Scenario.upstream Scenario.env
           [("segments", VArr [VObj Scenario.paris_segment])] []).
  reflexivity.
Defined.

(** [segments] given as a string: ignored, and the itinerary is created. *)
Lemma post_itineraries_without_segments_witness :
  @post_itineraries Scenario.engine Cases.writable Scenario.env
    (VObj [("itinerary", VObj Cases.title); ("segments", VStr "paris")]) []
  = ({| code := 201;
        json := VObj [ ("id", VStr "it7"); ("title", VStr "Spring");
                       ("segments", VArr []) ] |},
     [ {| req_method := POST; req_url := "http://localhost:3003/itineraries";
          req_body := Some (VObj Cases.title) |} ]).
Proof.
  apply (@post_itineraries_without_segments Scenario.engine Cases.writable Scenario.env
           (VObj [("itinerary", VObj Cases.title); ("segments", VStr "paris")])
           (VObj Cases.title) (VStr "paris") (VObj Cases.created) []);
    [reflexivity | reflexivity | reflexivity | discriminate | served].
Defined.

(** One valid segment: two reads, then the itinerary, then the segment. *)
Lemma post_itineraries_creates_witness :
  @post_itineraries Scenario.engine Cases.writable Scenario.env Cases.create_paris []
  = ({| code := 201;
        json := VObj [ ("id", VStr "it7"); ("title", VStr "Spring");
                       ("segments", VArr [VObj Cases.stored_segment]) ] |},
     [ {| req_method := GET; req_url := "http://localhost:3001/cities/paris";
          req_body := None |};
       {| req_method := GET; req_url := "http://localhost:3002/lodging-classes";
          req_body := None |};
       {| req_method := POST; req_url := "http://localhost:3003/itineraries";
          req_body := Some (VObj Cases.title) |};
       {| req_method := POST; req_url := "http://localhost:3003/itineraries/it7/segments";
          req_body := Some (VObj Scenario.paris_segment) |} ])
  /\ exists reads,
       [ GET_request (@destinationsClient Scenario.env) "/cities/paris";
         GET_request (@pricingClient Scenario.env) "/lodging-classes" ] = [] ++ reads
       /\ Forall is_read reads.
Proof.
  apply (@post_itineraries_creates Scenario.engine Cases.writable Scenario.env
           Cases.create_paris (VObj Cases.title) (VObj Cases.created) (VStr "it7")
           [VObj Scenario.paris_segment] [VObj Cases.stored_segment]
           [{| seg_valid := true; seg_errors := [] |}] []
           [ GET_request (@destinationsClient Scenario.env) "/cities/paris";
             GET_request (@pricingClient Scenario.env) "/lodging-classes" ]);
    [ reflexivity | reflexivity | reflexivity | discriminate | vm_compute; reflexivity
    | repeat constructor | served | reflexivity | repeat constructor; served ].
Defined.

(** The segment is refused with 422: the reply is 500 and the itinerary
    has been created. *)
Lemma post_itineraries_partial_witness :
  code (fst (@post_itineraries Scenario.engine Cases.segments_refused Scenario.env
               Cases.create_paris [])) = 500%N
  /\ snd (@post_itineraries Scenario.engine Cases.segments_refused Scenario.env
            Cases.create_paris [])
     = [ GET_request (@destinationsClient Scenario.env) "/cities/paris";
         GET_request (@pricingClient Scenario.env) "/lodging-classes" ]
       ++ POST_request (@itinerariesClient Scenario.env) "/itineraries" (VObj Cases.title)
          :: List.map (POST_request (@itinerariesClient Scenario.env)
                         ("/itineraries/" +:+ @JS.ToString Scenario.engine (VStr "it7")
                          +:+ "/segments"))
                      [VObj Scenario.paris_segment].
Proof.
  apply (@post_itineraries_partial Scenario.engine Cases.segments_refused Scenario.env
           Cases.create_paris (VObj Cases.title) (VObj Cases.created) (VStr "it7")
           [VObj Scenario.paris_segment]
           [{| seg_valid := true; seg_errors := [] |}] []
           [ GET_request (@destinationsClient Scenario.env) "/cities/paris";
             GET_request (@pricingClient Scenario.env) "/lodging-classes" ]);
    [ reflexivity | reflexivity | reflexivity | vm_compute; reflexivity
    | repeat constructor | served | reflexivity | ].
  left. not_served.
Defined.

(** The created itinerary has no [id]. *)
Lemma post_itineraries_undefined_id_witness :
  snd (@post_itineraries Scenario.engine Cases.no_id Scenario.env Cases.create_paris [])
  = [ GET_request (@destinationsClient Scenario.env) "/cities/paris";
      GET_request (@pricingClient Scenario.env) "/lodging-classes" ]
    ++ POST_request (@itinerariesClient Scenario.env) "/itineraries" (VObj Cases.title)
       :: List.map (POST_request (@itinerariesClient Scenario.env)
                      "/itineraries/undefined/segments")
                   [VObj Scenario.paris_segment].
Proof.
  apply (@post_itineraries_undefined_id Scenario.engine Cases.no_id Scenario.env
           Cases.create_paris (VObj Cases.title) Cases.title
           [VObj Scenario.paris_segment]
           [{| seg_valid := true; seg_errors := [] |}] []
           [ GET_request (@destinationsClient Scenario.env) "/cities/paris";
             GET_request (@pricingClient Scenario.env) "/lodging-classes" ]);
    [ reflexivity | reflexivity | reflexivity | discriminate | vm_compute; reflexivity
    | repeat constructor | served | reflexivity ].
Defined.

(** The itineraries service answers every write with 503. *)
Lemma post_itineraries_itinerary_first_witness :
  code (fst (@post_itineraries Scenario.engine Scenario.upstream Scenario.env
               Cases.create_paris [])) <> 201%N
  /\ exists calls,
       snd (@post_itineraries Scenario.engine Scenario.upstream Scenario.env
              Cases.create_paris []) = [] ++ calls
       /\ Forall (fun r => is_read r
                           \/ r = POST_request (@itinerariesClient Scenario.env)
                                    "/itineraries" (VObj Cases.title))
                 calls.
Proof.
  apply (@post_itineraries_itinerary_first Scenario.engine Scenario.upstream Scenario.env
           Cases.create_paris (VObj Cases.title) []); [reflexivity|].
  not_served.
Defined.

(** An itinerary the service does not know. *)
Lemma get_itinerary_upstream_failure_witness :
  code (fst (@get_itinerary Scenario.engine Scenario.upstream Scenario.env "nope" []))
  = 500%N
  /\ snd (@get_itinerary Scenario.engine Scenario.upstream Scenario.env "nope" [])
     = [] ++ [ GET_request (@itinerariesClient Scenario.env) "/itineraries/nope";
               GET_request (@itinerariesClient Scenario.env)
                 "/itineraries/nope/segments" ].
Proof.
  apply (@get_itinerary_upstream_failure Scenario.engine Scenario.upstream Scenario.env
           "nope" []).
  left. not_served.
Defined.

Lemma get_quotes_segments_refused_witness :
  @get_quotes Scenario.engine Scenario.upstream Scenario.env "nope" []
  = ({| code := 500;
        json := VObj [("error",
                       VStr "HTTP 404: Not Found from http://localhost:3003/itineraries/nope/segments")] |},
     [GET_request (@itinerariesClient Scenario.env) "/itineraries/nope/segments"]).
Proof.
  apply (@get_quotes_segments_refused Scenario.engine Scenario.upstream Scenario.env
           "nope" 404%N "Not Found" []).
  eexists. split; [reflexivity | lia].
Defined.



(** A season of the city "constructor". *)
Lemma get_destinations_inherited_key_witness :
  code (fst (@get_destinations Scenario.engine Cases.constructor_season Scenario.env []))
  = 500%N.
Proof.
  apply (@get_destinations_inherited_key Scenario.engine Cases.constructor_season
           Scenario.env
           (VArr [ VObj [("city_id", VStr "c1")]; VObj [("city_id", VStr "constructor")] ])
           [ [("city_id", VStr "c1")]; [("city_id", VStr "constructor")] ] []).
  - served.
  - apply (Spec.carries_bare
             [ VObj [("city_id", VStr "c1")]; VObj [("city_id", VStr "constructor")] ]).
  - right. left. reflexivity.
Defined.

(** Cities delivered under [items] instead of [data]. *)
Lemma get_destinations_needs_lists_witness :
  code (fst (@get_destinations Scenario.engine Cases.cities_under_items Scenario.env []))
  = 500%N.
Proof.
  apply (@get_destinations_needs_lists Scenario.engine Cases.cities_under_items
           Scenario.env (VObj [("items", VArr [VObj [("id", VStr "c1")]])]) []).
  - left. served.
  - intros l Hc. inversion Hc. discriminate.
Defined.


(** An unknown itinerary, as the quotes route reports it. *)
Lemma routes_error_contract_witness :
  error_reply (fst (@get_quotes Scenario.engine Scenario.upstream Scenario.env "nope" [])).
Proof.
  apply (proj2 (proj2 (proj2 (@routes_error_contract Scenario.engine Scenario.upstream
                                Scenario.env)))).
  vm_compute. discriminate.
Defined.


(** Itinerary [it5], whose segments come under [data]. *)
Lemma segments_must_be_an_array_witness :
  code (fst (@get_itinerary Scenario.engine Cases.wrapped_segments Scenario.env "it5" []))
  = 500%N
  /\ code (fst (@get_quotes Scenario.engine Cases.wrapped_segments Scenario.env "it5" []))
     = 500%N.
Proof.
  destruct (@segments_must_be_an_array Scenario.engine Cases.wrapped_segments Scenario.env
              "it5" [("data", VArr [VObj Scenario.paris_segment])] [])
    as [[Hi _] Hq].
  - served.
  - split; [exact Hi|]. apply Hq. reflexivity.
Defined.
